(** * Scale-based visibility and intro sequence of the stadium front-end

    A shallow embedding of the orchestration code of
    [frontend/src/components/StadiumApp.ts] together with the three scene
    objects it drives ([Sphere], [LightingSystem], [StadiumLoader]) and the
    constants of [frontend/src/utils/constants.ts].

    - JavaScript numbers that the code compares (the camera distance and
      the band limits) are modelled by [number]: a rational, one of the two
      infinities, or NaN.  Numbers the code only passes along (durations,
      opacities, coordinates) are rationals written with the literals of
      the source.
    - Methods of [StadiumApp] are statements of a small monad: they run on
      a world (the instance, the global [gsap], the tweens in flight),
      return or throw, and issue effects: calls on scene objects and tweens.
    - Methods of the scene objects are functions from the object to the
      object and the tweens they start, with the outcome of
      [typeof gsap !== 'undefined'] as an argument.
    - The distance a frame measures is an input of that frame, and so is
      the position at which [OrbitControls.update()] leaves the camera:
      the target, the pending input and the damping of the controls are
      not part of the state.
    - The engine's side of a tween is its renders: each writes a value,
      rounded as gsap rounds, to the target, and the last one writes the
      goal and runs [onComplete]. *)

From Stdlib Require Import QArith Qround Lqa Bool List String Ascii Arith Lia.
Import ListNotations.
Local Open Scope Q_scope.

(* ------------------------------------------------------------------ *)
(** ** JavaScript values *)

Module JS.

Inductive number : Type :=
| NaN
| PosInfinity
| NegInfinity
| Finite (q : Q).

(** [a >= b] of JavaScript: false as soon as one side is NaN. *)
Definition geq (a b : number) : bool :=
  match a, b with
  | NaN, _ | _, NaN => false
  | PosInfinity, _ => true
  | _, NegInfinity => true
  | NegInfinity, _ => false
  | Finite _, PosInfinity => false
  | Finite x, Finite y => Qle_bool y x
  end.

(** [a < b] of JavaScript. *)
Definition lt (a b : number) : bool :=
  match a, b with
  | NaN, _ | _, NaN => false
  | PosInfinity, _ => false
  | _, NegInfinity => false
  | NegInfinity, _ => true
  | Finite _, PosInfinity => true
  | Finite x, Finite y => negb (Qle_bool y x)
  end.

Inductive error : Type :=
| TypeError        (* property access on [undefined] *)
| ReferenceError.  (* use of an undeclared global *)

Inductive outcome (A : Type) : Type :=
| Returns (a : A)
| Throws (e : error).

Arguments Returns {A} a.
Arguments Throws {A} e.

(** [String.prototype.toLowerCase] on the ASCII range. *)
Definition lowerAscii (c : ascii) : ascii :=
  let n := nat_of_ascii c in
  if ((65 <=? n) && (n <=? 90))%nat then ascii_of_nat (n + 32) else c.

Fixpoint toLowerCase (s : string) : string :=
  match s with
  | EmptyString => EmptyString
  | String c r => String (lowerAscii c) (toLowerCase r)
  end.

End JS.

Import JS.

Coercion Finite : Q >-> number.

(* ------------------------------------------------------------------ *)
(** ** types/index.ts *)

Inductive ZoomScale : Type := sphere | stadium | detail.

Definition ZoomScale_eqb (a b : ZoomScale) : bool :=
  match a, b with
  | sphere, sphere | stadium, stadium | detail, detail => true
  | _, _ => false
  end.

Record ScaleThresholds : Type := mkScaleThresholds {
  min : number;
  max : number
}.

(** [ScaleThresholdConfig]: an object with one entry per scale name. *)
Definition ScaleThresholdConfig : Type := ZoomScale -> ScaleThresholds.

Record AppState : Type := mkAppState {
  currentZoomScale : ZoomScale;
  sphereVisible : bool;
  stadiumTextVisible : bool;
  stadiumDetailVisible : bool;
  hasSeenIntroSequence : bool;
  isAnimationPlaying : bool;
  isTransitioning : bool
}.

(* ------------------------------------------------------------------ *)
(** ** utils/constants.ts *)

Definition SCALE_THRESHOLDS : ScaleThresholdConfig := fun s =>
  match s with
  | sphere => {| min := 2500; max := PosInfinity |}
  | stadium => {| min := 500; max := 2500 |}
  | detail => {| min := 1; max := 500 |}
  end.

Module ANIMATION_DURATIONS.
Definition INTRO_ZOOM : Q := 5.0.
Definition CAMERA_TRANSITION : Q := 2.0.
Definition VISIBILITY_FADE : Q := 0.8.
End ANIMATION_DURATIONS.

(* ------------------------------------------------------------------ *)
(** ** The scale classifier

    The [if]/[else if]/[else] chain at the head of
    [updateScaleBasedVisibility].  The variable [newScale] starts as the
    current scale, but each of the three branches assigns it, so the result
    depends on the distance alone. *)

Definition classify (distance : number) : ZoomScale :=
  if geq distance (min (SCALE_THRESHOLDS sphere)) then sphere
  else if geq distance (min (SCALE_THRESHOLDS stadium)) then stadium
  else detail.

(** The classifier as the design document words it: bands are tried in the
    order sphere, stadium, detail and the first whose interval
    [min, max) holds the distance wins; failing that, the first band whose
    [min] is at most the distance. *)

Definition bands : list ZoomScale := [sphere; stadium; detail].

Definition inBand (distance : number) (s : ZoomScale) : bool :=
  geq distance (min (SCALE_THRESHOLDS s)) && lt distance (max (SCALE_THRESHOLDS s)).

Definition minAtMost (distance : number) (s : ZoomScale) : bool :=
  geq distance (min (SCALE_THRESHOLDS s)).

Definition classify_by_bands (distance : number) : option ZoomScale :=
  match find (inBand distance) bands with
  | Some s => Some s
  | None => find (minAtMost distance) bands
  end.

Module CAMERA_POSITIONS.
Record xyz : Type := mk_xyz { x : Q; y : Q; z : Q }.
Definition SPHERE_START : xyz := {| x := 0; y := 0; z := 4000 |}.
Definition DETAIL_END : xyz :=
  {| x := 19.4319229067779; y := 9.883097359294862; z := 21.532109433098107 |}.
End CAMERA_POSITIONS.

Definition FLOODLIGHT_POSITIONS : list (Q * Q * Q * string) :=
  [ (-100, 150, -60, "NW Tower"%string);
    (100, 150, -60, "NE Tower"%string);
    (-100, 150, 60, "SW Tower"%string);
    (100, 150, 60, "SE Tower"%string) ].

(* ------------------------------------------------------------------ *)
(** ** The parts of three.js the code touches *)

Module THREE.

Definition Vector3 : Type := CAMERA_POSITIONS.xyz.

Record Material : Type := mkMaterial {
  transparent : bool;
  opacity : Q
}.

(** [mesh.material] is absent, one material, or an array of materials. *)
Inductive MaterialSlot : Type :=
| NoMaterial
| SingleMaterial (m : Material)
| MaterialArray (ms : list Material).

Record Node : Type := mkNode {
  isMesh : bool;
  visible : bool;
  material : MaterialSlot
}.

(** An object with the objects below it, in the order [traverse] visits
    them: the object itself comes first. *)
Record Object3D : Type := mkObject3D {
  self : Node;
  descendants : list Node
}.

Definition traverse (o : Object3D) : list Node := self o :: descendants o.

Record Camera : Type := mkCamera { position : Vector3 }.

(** The three input switches of [OrbitControls]. *)
Record OrbitControls : Type := mkOrbitControls {
  enableRotate : bool;
  enableZoom : bool;
  enablePan : bool
}.

End THREE.

(* ------------------------------------------------------------------ *)
(** ** The animation engine

    [gsap.to(target, vars)] starts a tween.  The targets the code animates
    are named by [Target]; a material of the stadium is addressed by the
    position of its mesh in traversal order and its position in the mesh's
    material list. *)

Module GSAP.

Inductive Target : Type :=
| CameraPosition
| SphereGroup
| SphereScale
| StadiumMaterial (node mat : nat)
| Floodlight (i : nat).

Inductive Goal : Type :=
| ToXYZ (v : THREE.Vector3)
| ToOpacity (o : Q)
| ToIntensity (i : Q).

Inductive Callback : Type :=
| IntroComplete.

Record Tween : Type := mkTween {
  target : Target;
  goal : Goal;
  duration : Q;
  ease : string;
  onComplete : option Callback
}.

End GSAP.

(** Indexed map and indexed flat map, for [forEach] and [traverse]. *)
Fixpoint imapFrom {A B : Type} (f : nat -> A -> B) (i : nat) (l : list A) : list B :=
  match l with
  | [] => []
  | a :: r => f i a :: imapFrom f (S i) r
  end.

Fixpoint iflatMapFrom {A B : Type} (f : nat -> A -> list B) (i : nat) (l : list A) : list B :=
  match l with
  | [] => []
  | a :: r => f i a ++ iflatMapFrom f (S i) r
  end.

Definition resolveDuration (duration : option Q) : Q :=
  match duration with
  | Some d => d
  | None => 0.8
  end.

(* ------------------------------------------------------------------ *)
(** ** components/Sphere.ts *)

Module Sphere.

(** The group of wireframe lines.  [opacity] is the property the tween
    writes on the group; a fresh group has none. *)
Record t : Type := mk {
  opacity : option Q;
  scale : THREE.Vector3
}.

Definition new : t :=
  {| opacity := None; scale := CAMERA_POSITIONS.mk_xyz 1 1 1 |}.

(** [updateVisibility(visible, duration = 0.8)]: two tweens when the engine
    is loaded, nothing otherwise. *)
Definition updateVisibility (gsapLoaded visible : bool) (duration : option Q)
  : list GSAP.Tween :=
  let duration := resolveDuration duration in
  if gsapLoaded then
    [ GSAP.mkTween GSAP.SphereGroup
        (GSAP.ToOpacity (if visible then 1.0 else 0.0))
        duration "power2.inOut" None;
      GSAP.mkTween GSAP.SphereScale
        (GSAP.ToXYZ (if visible then CAMERA_POSITIONS.mk_xyz 1.0 1.0 1.0
                     else CAMERA_POSITIONS.mk_xyz 0.8 0.8 0.8))
        duration "power2.inOut" None ]
  else [].

End Sphere.

(* ------------------------------------------------------------------ *)
(** ** components/LightingSystem.ts *)

Module LightingSystem.

(** The intensities of the floodlights, in the order they were pushed. *)
Record t : Type := mk { floodlights : list Q }.

Definition new : t :=
  {| floodlights := map (fun _ => 2.0) FLOODLIGHT_POSITIONS |}.

(** [updateFloodlightIntensity(isDetailMode, duration = 0.8)]: one tween per
    light when the engine is loaded, an immediate assignment otherwise. *)
Definition updateFloodlightIntensity (gsapLoaded : bool) (ls : t)
  (isDetailMode : bool) (duration : option Q) : t * list GSAP.Tween :=
  let duration := resolveDuration duration in
  let level := if isDetailMode then 8.0 else 2.0 in
  if gsapLoaded then
    (ls, imapFrom (fun i _ =>
           GSAP.mkTween (GSAP.Floodlight i) (GSAP.ToIntensity level)
             duration "power2.inOut" None) 0 (floodlights ls))
  else
    ({| floodlights := map (fun _ => level) (floodlights ls) |}, []).

End LightingSystem.

(* ------------------------------------------------------------------ *)
(** ** loaders/StadiumLoader.ts *)

Module StadiumLoader.

Import THREE.

Definition materialsOf (slot : MaterialSlot) : list Material :=
  match slot with
  | NoMaterial => []
  | SingleMaterial m => [m]
  | MaterialArray ms => ms
  end.

Definition mapSlot (f : Material -> Material) (slot : MaterialSlot) : MaterialSlot :=
  match slot with
  | NoMaterial => NoMaterial
  | SingleMaterial m => SingleMaterial (f m)
  | MaterialArray ms => MaterialArray (map f ms)
  end.

(** [prepareStadiumMaterials]: the model starts hidden, every mesh hidden
    and every material transparent with opacity 0. *)
Definition prepareNode (n : Node) : Node :=
  if isMesh n then
    {| isMesh := true; visible := false;
       material := mapSlot (fun _ => {| transparent := true; opacity := 0.0 |})
                     (material n) |}
  else n.

Definition prepareStadiumMaterials (stadium : Object3D) : Object3D :=
  let root := self stadium in
  {| self := prepareNode {| isMesh := isMesh root; visible := false;
                            material := material root |};
     descendants := map prepareNode (descendants stadium) |}.

(** What the body of the [materials.forEach] does to one material: when
    showing, a tween to opacity 1 if the engine is loaded and an immediate
    1 otherwise; when hiding, an immediate 0. *)
Definition assignOpacity (gsapLoaded visible : bool) (mat : Material) : Material :=
  if visible then
    if gsapLoaded then mat
    else {| transparent := transparent mat; opacity := 1.0 |}
  else {| transparent := transparent mat; opacity := 0.0 |}.

Definition materialTweens (gsapLoaded visible : bool) (duration : Q)
  (node : nat) (mats : list Material) : list GSAP.Tween :=
  if visible then
    if gsapLoaded then
      imapFrom (fun j _ =>
        GSAP.mkTween (GSAP.StadiumMaterial node j) (GSAP.ToOpacity 1.0)
          duration "power2.inOut" None) 0 mats
    else []
  else [].

(** The callback of [stadium.traverse] on one object. *)
Definition visitNode (gsapLoaded visible : bool) (n : Node) : Node :=
  if isMesh n then
    {| isMesh := true; visible := visible;
       material := mapSlot (assignOpacity gsapLoaded visible) (material n) |}
  else n.

Definition visitTweens (gsapLoaded visible : bool) (duration : Q)
  (i : nat) (n : Node) : list GSAP.Tween :=
  if isMesh n then materialTweens gsapLoaded visible duration i (materialsOf (material n))
  else [].

(** [updateStadiumVisibility(stadium, visible, duration = 0.8)]. *)
Definition updateStadiumVisibility (gsapLoaded : bool) (stadium : Object3D)
  (visible : bool) (duration : option Q) : Object3D * list GSAP.Tween :=
  let duration := resolveDuration duration in
  let root := self stadium in
  let stadium := {| self := {| isMesh := isMesh root; visible := visible;
                               material := material root |};
                    descendants := descendants stadium |} in
  ({| self := visitNode gsapLoaded visible (self stadium);
      descendants := map (visitNode gsapLoaded visible) (descendants stadium) |},
   iflatMapFrom (visitTweens gsapLoaded visible duration) 0 (traverse stadium)).

End StadiumLoader.

(* ------------------------------------------------------------------ *)
(** ** The state the application code runs on *)

Module SceneElements.
Record t : Type := mk {
  camera : option THREE.Camera;
  controls : option THREE.OrbitControls;
  stadium : option THREE.Object3D
}.
End SceneElements.

(** The fields of a [StadiumApp] instance that the modelled methods use. *)
Module This.
Record t : Type := mk {
  appState : AppState;
  sceneElements : SceneElements.t;
  sphere : option Sphere.t;
  lightingSystem : option LightingSystem.t
}.
End This.

(** The instance, the global [gsap] (loaded by a script tag or not), and the
    tweens the engine has in flight. *)
Record World : Type := mkWorld {
  this : This.t;
  gsapLoaded : bool;
  timeline : list GSAP.Tween
}.

(** What a piece of code does to the outside: the method calls the
    orchestrator makes on the scene objects, with the arguments as written
    at the call site, and the tweens handed to the engine. *)
Inductive MethodCall : Type :=
| sphere_updateVisibility (visible : bool) (duration : option Q)
| stadiumLoader_updateStadiumVisibility (visible : bool) (duration : option Q)
| lightingSystem_updateFloodlightIntensity (isDetailMode : bool) (duration : option Q).

Inductive Effect : Type :=
| Call (c : MethodCall)
| Animate (tw : GSAP.Tween).

(** Statements run on a world, return or throw, and leave a world and the
    effects issued so far behind, also when they throw. *)
Definition Exec (A : Type) : Type := World -> outcome A * World * list Effect.

Definition ret {A : Type} (a : A) : Exec A := fun w => (Returns a, w, []).

Definition bind {A B : Type} (m : Exec A) (k : A -> Exec B) : Exec B := fun w =>
  let '(r, w1, l1) := m w in
  match r with
  | Throws e => (Throws e, w1, l1)
  | Returns a => let '(r2, w2, l2) := k a w1 in (r2, w2, l1 ++ l2)
  end.

Declare Scope exec_scope.
Delimit Scope exec_scope with exec.
Notation "x <- m ;; k" := (bind m (fun x => k))
  (at level 61, m at next level, right associativity) : exec_scope.
Notation "m ;; k" := (bind m (fun _ => k))
  (at level 61, right associativity) : exec_scope.
Local Open Scope exec_scope.

Definition throw {A : Type} (e : error) : Exec A := fun w => (Throws e, w, []).

Definition read {A : Type} (f : This.t -> A) : Exec A :=
  fun w => (Returns (f (this w)), w, []).

Definition modify (f : This.t -> This.t) : Exec unit :=
  fun w => (Returns tt, mkWorld (f (this w)) (gsapLoaded w) (timeline w), []).

(** [e!.p]: the assertion is erased at run time, so the access throws a
    TypeError when [e] is undefined. *)
Definition nonNull {A : Type} (o : option A) : Exec A :=
  match o with
  | Some a => ret a
  | None => throw TypeError
  end.

(** [typeof gsap !== 'undefined']. *)
Definition gsapDefined : Exec bool :=
  fun w => (Returns (gsapLoaded w), w, []).

Definition record (c : MethodCall) : Exec unit :=
  fun w => (Returns tt, w, [Call c]).

(** Tweens handed to the engine by a scene object. *)
Definition issue (tws : list GSAP.Tween) : Exec unit :=
  fun w => (Returns tt, mkWorld (this w) (gsapLoaded w) (timeline w ++ tws),
            map Animate tws).

(** [gsap.to(...)] written without a guard of its own. *)
Definition gsap_to (tw : GSAP.Tween) : Exec unit :=
  g <- gsapDefined ;;
  if g then issue [tw] else throw ReferenceError.

(** Field updates. *)
Definition setCurrentZoomScale (s : ZoomScale) (a : AppState) : AppState :=
  mkAppState s (sphereVisible a) (stadiumTextVisible a) (stadiumDetailVisible a)
    (hasSeenIntroSequence a) (isAnimationPlaying a) (isTransitioning a).

Definition setSphereVisible (b : bool) (a : AppState) : AppState :=
  mkAppState (currentZoomScale a) b (stadiumTextVisible a) (stadiumDetailVisible a)
    (hasSeenIntroSequence a) (isAnimationPlaying a) (isTransitioning a).

Definition setStadiumDetailVisible (b : bool) (a : AppState) : AppState :=
  mkAppState (currentZoomScale a) (sphereVisible a) (stadiumTextVisible a) b
    (hasSeenIntroSequence a) (isAnimationPlaying a) (isTransitioning a).

Definition setHasSeenIntroSequence (b : bool) (a : AppState) : AppState :=
  mkAppState (currentZoomScale a) (sphereVisible a) (stadiumTextVisible a)
    (stadiumDetailVisible a) b (isAnimationPlaying a) (isTransitioning a).

Definition setAppState (a : AppState) (t : This.t) : This.t :=
  This.mk a (This.sceneElements t) (This.sphere t) (This.lightingSystem t).

Definition setSceneElements (e : SceneElements.t) (t : This.t) : This.t :=
  This.mk (This.appState t) e (This.sphere t) (This.lightingSystem t).

Definition setSphere (s : option Sphere.t) (t : This.t) : This.t :=
  This.mk (This.appState t) (This.sceneElements t) s (This.lightingSystem t).

Definition setLightingSystem (l : option LightingSystem.t) (t : This.t) : This.t :=
  This.mk (This.appState t) (This.sceneElements t) (This.sphere t) l.

Definition setCamera (c : option THREE.Camera) (t : This.t) : This.t :=
  let e := This.sceneElements t in
  setSceneElements (SceneElements.mk c (SceneElements.controls e) (SceneElements.stadium e)) t.

Definition setControls (c : option THREE.OrbitControls) (t : This.t) : This.t :=
  let e := This.sceneElements t in
  setSceneElements (SceneElements.mk (SceneElements.camera e) c (SceneElements.stadium e)) t.

Definition setStadium (s : option THREE.Object3D) (t : This.t) : This.t :=
  let e := This.sceneElements t in
  setSceneElements (SceneElements.mk (SceneElements.camera e) (SceneElements.controls e) s) t.

Definition camera (t : This.t) : option THREE.Camera :=
  SceneElements.camera (This.sceneElements t).

Definition controls (t : This.t) : option THREE.OrbitControls :=
  SceneElements.controls (This.sceneElements t).

(** [this.appState.f = v]. *)
Definition assignAppState (f : AppState -> AppState) : Exec unit :=
  modify (fun t => setAppState (f (This.appState t)) t).

(** [this.sceneElements.controls!.f = v]. *)
Definition assignControls (f : THREE.OrbitControls -> THREE.OrbitControls) : Exec unit :=
  c <- read controls ;;
  c <- nonNull c ;;
  modify (setControls (Some (f c))).

Definition setEnableRotate (b : bool) (c : THREE.OrbitControls) : THREE.OrbitControls :=
  THREE.mkOrbitControls b (THREE.enableZoom c) (THREE.enablePan c).

Definition setEnableZoom (b : bool) (c : THREE.OrbitControls) : THREE.OrbitControls :=
  THREE.mkOrbitControls (THREE.enableRotate c) b (THREE.enablePan c).

Definition setEnablePan (b : bool) (c : THREE.OrbitControls) : THREE.OrbitControls :=
  THREE.mkOrbitControls (THREE.enableRotate c) (THREE.enableZoom c) b.

(* ------------------------------------------------------------------ *)
(** ** components/StadiumApp.ts *)

Module StadiumApp.

(** The field initialisers of the class. *)
Definition new : This.t :=
  {| This.appState :=
       {| currentZoomScale := sphere;
          sphereVisible := true;
          stadiumTextVisible := false;
          stadiumDetailVisible := false;
          hasSeenIntroSequence := false;
          isAnimationPlaying := true;
          isTransitioning := false |};
     This.sceneElements := SceneElements.mk None None None;
     This.sphere := None;
     This.lightingSystem := None |}.

(** The [onComplete] closure of the intro tween. *)
Definition introOnComplete : Exec unit :=
  assignControls (setEnableRotate true) ;;
  assignControls (setEnableZoom true) ;;
  assignControls (setEnablePan true) ;;
  assignAppState (setHasSeenIntroSequence true).

(** The camera animation of the intro, with its [onComplete]. *)
Definition introTween : GSAP.Tween :=
  {| GSAP.target := GSAP.CameraPosition;
     GSAP.goal := GSAP.ToXYZ CAMERA_POSITIONS.DETAIL_END;
     GSAP.duration := ANIMATION_DURATIONS.INTRO_ZOOM;
     GSAP.ease := "power1.inOut";
     GSAP.onComplete := Some GSAP.IntroComplete |}.

Definition startIntroSequence : Exec unit :=
  assignControls (setEnableRotate false) ;;
  assignControls (setEnableZoom false) ;;
  assignControls (setEnablePan false) ;;
  g <- gsapDefined ;;
  if g then
    cam <- read camera ;;
    _ <- nonNull cam ;;
    gsap_to introTween
  else ret tt.

(** [this.sphere?.updateVisibility(visible)]. *)
Definition call_sphere_updateVisibility (visible : bool) : Exec unit :=
  s <- read This.sphere ;;
  match s with
  | None => ret tt
  | Some _ =>
      record (sphere_updateVisibility visible None) ;;
      g <- gsapDefined ;;
      issue (Sphere.updateVisibility g visible None)
  end.

(** [this.stadiumLoader.updateStadiumVisibility(stadium, visible)]: the
    callee starts with [stadium.visible = visible], which throws on an
    undefined [stadium]. *)
Definition call_updateStadiumVisibility (stadium : option THREE.Object3D)
  (visible : bool) : Exec unit :=
  record (stadiumLoader_updateStadiumVisibility visible None) ;;
  s <- nonNull stadium ;;
  g <- gsapDefined ;;
  let r := StadiumLoader.updateStadiumVisibility g s visible None in
  modify (setStadium (Some (fst r))) ;;
  issue (snd r).

(** [this.lightingSystem?.updateFloodlightIntensity(isDetailMode)]. *)
Definition call_updateFloodlightIntensity (isDetailMode : bool) : Exec unit :=
  l <- read This.lightingSystem ;;
  match l with
  | None => ret tt
  | Some ls =>
      record (lightingSystem_updateFloodlightIntensity isDetailMode None) ;;
      g <- gsapDefined ;;
      let r := LightingSystem.updateFloodlightIntensity g ls isDetailMode None in
      modify (setLightingSystem (Some (fst r))) ;;
      issue (snd r)
  end.

Definition updateElementVisibility : Exec unit :=
  (* Sphere visibility *)
  a <- read This.appState ;;
  let shouldShowSphere := ZoomScale_eqb (currentZoomScale a) sphere in
  (if negb (Bool.eqb shouldShowSphere (sphereVisible a)) then
     assignAppState (setSphereVisible shouldShowSphere) ;;
     call_sphere_updateVisibility shouldShowSphere
   else ret tt) ;;
  (* Stadium visibility *)
  a <- read This.appState ;;
  let shouldShowStadium := negb (ZoomScale_eqb (currentZoomScale a) sphere) in
  st <- read (fun t => SceneElements.stadium (This.sceneElements t)) ;;
  (match st with
   | Some _ => call_updateStadiumVisibility st shouldShowStadium
   | None => ret tt
   end) ;;
  (* Detail visibility (floodlight intensity) *)
  a <- read This.appState ;;
  let shouldShowDetail := ZoomScale_eqb (currentZoomScale a) detail in
  if negb (Bool.eqb shouldShowDetail (stadiumDetailVisible a)) then
    assignAppState (setStadiumDetailVisible shouldShowDetail) ;;
    call_updateFloodlightIntensity shouldShowDetail
  else ret tt.

(** [updateScaleBasedVisibility], with the value that
    [camera.position.distanceTo(controls.target)] yields in this frame as
    its argument. *)
Definition updateScaleBasedVisibility (distance : number) : Exec unit :=
  cam <- read camera ;;
  _ <- nonNull cam ;;
  ctl <- read controls ;;
  _ <- nonNull ctl ;;
  a <- read This.appState ;;
  let newScale := classify distance in
  (* If scale changed, update visibility *)
  if negb (ZoomScale_eqb newScale (currentZoomScale a)) then
    assignAppState (setCurrentZoomScale newScale) ;;
    updateElementVisibility
  else ret tt.

Definition jumpTween (p : THREE.Vector3) : GSAP.Tween :=
  {| GSAP.target := GSAP.CameraPosition;
     GSAP.goal := GSAP.ToXYZ p;
     GSAP.duration := 1.5;
     GSAP.ease := "power2.inOut";
     GSAP.onComplete := None |}.

Definition onKeyDown (key : string) : Exec unit :=
  cam <- read camera ;;
  g <- gsapDefined ;;
  match cam with
  | None => ret tt
  | Some _ =>
      if negb g then ret tt
      else
        let k := toLowerCase key in
        if String.eqb k "g" then gsap_to (jumpTween CAMERA_POSITIONS.SPHERE_START)
        else if String.eqb k "d" then gsap_to (jumpTween CAMERA_POSITIONS.DETAIL_END)
        else ret tt
  end.

Definition initCamera : Exec unit :=
  modify (setCamera (Some (THREE.mkCamera CAMERA_POSITIONS.SPHERE_START))).

(** [OrbitControls] starts with rotate, zoom and pan enabled. *)
Definition initControls : Exec unit :=
  modify (setControls (Some (THREE.mkOrbitControls true true true))).

(** [init] up to its [await]: scene, camera, renderer and controls, the
    sphere and the lighting.  Scene graph and renderer are not modelled. *)
Definition initUntilLoad : Exec unit :=
  initCamera ;;
  initControls ;;
  modify (setSphere (Some Sphere.new)) ;;
  modify (setLightingSystem (Some LightingSystem.new)).

(** [init] from the point where the loader has settled, with what it
    delivered: the loaded scene, or nothing when loading failed and the
    error was caught. *)
Definition initAfterLoad (loaded : option THREE.Object3D) : Exec unit :=
  (match loaded with
   | Some model =>
       modify (setStadium (Some (StadiumLoader.prepareStadiumMaterials model)))
   | None => ret tt
   end) ;;
  startIntroSequence.

Definition init (loaded : option THREE.Object3D) : Exec unit :=
  initUntilLoad ;;
  initAfterLoad loaded.

End StadiumApp.

(** The orchestrator's per-frame step under the name the design uses. *)
Definition tick (distance : number) : Exec unit :=
  StadiumApp.updateScaleBasedVisibility distance.

(** A page with a fresh application object. *)
Definition page (gsapLoaded : bool) : World :=
  {| this := StadiumApp.new; gsapLoaded := gsapLoaded; timeline := [] |}.

Definition worldOf {A : Type} (r : outcome A * World * list Effect) : World :=
  snd (fst r).

Definition effectsOf {A : Type} (r : outcome A * World * list Effect) : list Effect :=
  snd r.

Definition outcomeOf {A : Type} (r : outcome A * World * list Effect) : outcome A :=
  fst (fst r).

(** The world while the stadium is still loading.  [main.ts] calls
    [init()] without awaiting it and then [start()], so the first frames
    run on this world. *)
Definition loading (gsapLoaded : bool) : World :=
  worldOf (StadiumApp.initUntilLoad (page gsapLoaded)).

(** The world once [init] has run to its end. *)
Definition started (gsapLoaded : bool) (loaded : option THREE.Object3D) : World :=
  worldOf (StadiumApp.init loaded (page gsapLoaded)).

(* ------------------------------------------------------------------ *)
(** ** The engine's side: a tween that runs to its end

    The code never waits for a tween.  What it relies on is that a tween in
    flight ends at some point, that the engine has then written the goal
    values to its target and that its [onComplete], when it has one, is
    called once. *)

Fixpoint updateNth {A : Type} (n : nat) (f : A -> A) (l : list A) : list A :=
  match l, n with
  | [], _ => []
  | a :: r, O => f a :: r
  | a :: r, S n' => a :: updateNth n' f r
  end.

Definition removeNth {A : Type} (n : nat) (l : list A) : list A :=
  firstn n l ++ skipn (S n) l.

Definition withOpacity (o : Q) (m : THREE.Material) : THREE.Material :=
  THREE.mkMaterial (THREE.transparent m) o.

Definition slotWithOpacity (j : nat) (o : Q) (slot : THREE.MaterialSlot)
  : THREE.MaterialSlot :=
  match slot with
  | THREE.NoMaterial => THREE.NoMaterial
  | THREE.SingleMaterial m =>
      match j with
      | O => THREE.SingleMaterial (withOpacity o m)
      | S _ => slot
      end
  | THREE.MaterialArray ms => THREE.MaterialArray (updateNth j (withOpacity o) ms)
  end.

Definition nodeWithOpacity (j : nat) (o : Q) (n : THREE.Node) : THREE.Node :=
  THREE.mkNode (THREE.isMesh n) (THREE.visible n) (slotWithOpacity j o (THREE.material n)).

Definition objectWithOpacity (i j : nat) (o : Q) (s : THREE.Object3D) : THREE.Object3D :=
  match i with
  | O => THREE.mkObject3D (nodeWithOpacity j o (THREE.self s)) (THREE.descendants s)
  | S i' => THREE.mkObject3D (THREE.self s)
              (updateNth i' (nodeWithOpacity j o) (THREE.descendants s))
  end.

(** gsap writes the numbers it animates rounded to six decimals,
    [Math.round(value * 1000000) / 1000000], at every render of a tween,
    the last one included. *)
Definition gsapRound (value : Q) : Q :=
  Qfloor (value * 1000000 + (1 # 2)) # 1000000.

Definition gsapRoundXYZ (v : THREE.Vector3) : THREE.Vector3 :=
  CAMERA_POSITIONS.mk_xyz (gsapRound (CAMERA_POSITIONS.x v))
    (gsapRound (CAMERA_POSITIONS.y v)) (gsapRound (CAMERA_POSITIONS.z v)).

(** A render of a tween: the engine writes [value], rounded, to the target.
    three.js lets several meshes hold one and the same material object,
    while [THREE.Object3D] keeps a record per mesh and position; the methods
    of the loader write the same value at every position, so that only
    the engine's writes tell the difference.  [shared] names the other
    positions at which the stadium holds the material object the engine
    writes to: the write shows at all of them. *)
Definition engineWrite (target : GSAP.Target) (value : GSAP.Goal)
  (shared : list (nat * nat)) (t : This.t) : This.t :=
  match target, value with
  | GSAP.CameraPosition, GSAP.ToXYZ p =>
      setCamera (option_map (fun _ => THREE.mkCamera (gsapRoundXYZ p)) (camera t)) t
  | GSAP.SphereGroup, GSAP.ToOpacity o =>
      setSphere (option_map (fun s => Sphere.mk (Some (gsapRound o)) (Sphere.scale s))
                   (This.sphere t)) t
  | GSAP.SphereScale, GSAP.ToXYZ v =>
      setSphere (option_map (fun s => Sphere.mk (Sphere.opacity s) (gsapRoundXYZ v))
                   (This.sphere t)) t
  | GSAP.StadiumMaterial i j, GSAP.ToOpacity o =>
      setStadium
        (option_map
           (fun s => fold_left (fun s' ij => objectWithOpacity (fst ij) (snd ij)
                                               (gsapRound o) s')
                       ((i, j) :: shared) s)
           (SceneElements.stadium (This.sceneElements t))) t
  | GSAP.Floodlight i, GSAP.ToIntensity v =>
      setLightingSystem
        (option_map (fun ls => LightingSystem.mk
                                 (updateNth i (fun _ => gsapRound v)
                                    (LightingSystem.floodlights ls)))
           (This.lightingSystem t)) t
  | _, _ => t
  end.

(** The last render of a tween writes its goal; here the target's material
    is held at one position only. *)
Definition arrive (tw : GSAP.Tween) (t : This.t) : This.t :=
  engineWrite (GSAP.target tw) (GSAP.goal tw) [] t.

Definition runCallback (cb : option GSAP.Callback) : Exec unit :=
  match cb with
  | Some GSAP.IntroComplete => StadiumApp.introOnComplete
  | None => ret tt
  end.

(** The [n]-th tween in flight ends. *)
Definition tweenComplete (n : nat) : Exec unit := fun w =>
  match nth_error (timeline w) n with
  | None => (Returns tt, w, [])
  | Some tw =>
      runCallback (GSAP.onComplete tw)
        (mkWorld (arrive tw (this w)) (gsapLoaded w) (removeNth n (timeline w)))
  end.

(** The [n]-th tween in flight ends, its target being a material that the
    stadium also holds at the positions [shared]. *)
Definition tweenCompleteShared (n : nat) (shared : list (nat * nat)) : Exec unit := fun w =>
  match nth_error (timeline w) n with
  | None => (Returns tt, w, [])
  | Some tw =>
      runCallback (GSAP.onComplete tw)
        (mkWorld (engineWrite (GSAP.target tw) (GSAP.goal tw) shared (this w))
           (gsapLoaded w) (removeNth n (timeline w)))
  end.

(** A render of the [n]-th tween in flight before its end: a value between
    start and goal is written, and the tween stays in flight. *)
Definition tweenRender (n : nat) (value : GSAP.Goal) (shared : list (nat * nat))
  : Exec unit := fun w =>
  match nth_error (timeline w) n with
  | None => (Returns tt, w, [])
  | Some tw =>
      (Returns tt,
       mkWorld (engineWrite (GSAP.target tw) value shared (this w))
         (gsapLoaded w) (timeline w), [])
  end.

(* ------------------------------------------------------------------ *)
(** ** What happens to a running page *)

(** The floodlight block of [animate]:
    [if (this.appState.isAnimationPlaying) { if (this.lightingSystem &&
    this.appState.currentZoomScale === 'detail')
    this.lightingSystem.animateFloodlights(time) }].  [intensity i base] is
    the value the callee assigns to light [i], whose intensity was [base]. *)
Definition flickerFloodlights (intensity : nat -> Q -> Q) : Exec unit :=
  a <- read This.appState ;;
  if isAnimationPlaying a then
    l <- read This.lightingSystem ;;
    match l with
    | Some ls =>
        if ZoomScale_eqb (currentZoomScale a) detail then
          modify (setLightingSystem
                    (Some (LightingSystem.mk
                             (imapFrom intensity 0 (LightingSystem.floodlights ls)))))
        else ret tt
    | None => ret tt
    end
  else ret tt.

(** [this.sceneElements.controls!.update()].  [OrbitControls] computes the
    position of the camera it was built on from its target, the input it
    has received, its damping and its limits on angle and distance, and
    writes it to [camera.position].  None of these is part of the modelled
    state: the position written is an input of the call. *)
Definition controlsUpdate (position : THREE.Vector3) : Exec unit :=
  ctl <- read controls ;;
  _ <- nonNull ctl ;;
  modify (fun t => setCamera (option_map (fun _ => THREE.mkCamera position) (camera t)) t).

(** What happens on a page, piece by piece.  A run of [animate] is
    [Frame d], then [Flicker f], then [ControlsUpdate p]: the scale update
    with the distance [d] it measures, the floodlight block, and
    [controls.update()], which leaves the camera at [p]; the rendering that
    ends [animate] touches nothing of the modelled state.  [OrbitControls]
    also calls its [update] from its own input listeners, which is a
    [ControlsUpdate] outside a frame.  The engine renders the tweens in
    flight ([TweenRender]) and ends them ([TweenComplete], or
    [TweenCompleteShared] when the target is a shared material). *)
Inductive Event : Type :=
| Frame (distance : number)
| KeyDown (key : string)
| TweenComplete (n : nat)
| Flicker (intensity : nat -> Q -> Q)
| ControlsUpdate (position : THREE.Vector3)
| TweenRender (n : nat) (value : GSAP.Goal) (shared : list (nat * nat))
| TweenCompleteShared (n : nat) (shared : list (nat * nat)).

Definition handle (e : Event) : Exec unit :=
  match e with
  | Frame d => tick d
  | KeyDown k => StadiumApp.onKeyDown k
  | TweenComplete n => tweenComplete n
  | Flicker f => flickerFloodlights f
  | ControlsUpdate p => controlsUpdate p
  | TweenRender n v shared => tweenRender n v shared
  | TweenCompleteShared n shared => tweenCompleteShared n shared
  end.

(** Each event is handled in a turn of the event loop of its own: an
    exception ends that turn only, and the world it leaves is the one the
    next event finds. *)
Fixpoint run (es : list Event) (w : World) : World :=
  match es with
  | [] => w
  | e :: r => run r (worldOf (handle e w))
  end.

(** The events of one run of [animate].  In the code the floodlight block
    and [controls.update()] are reached only when the scale update has
    returned; as events they are handled whatever the outcome of the
    previous one, so that a run of events allows all that a run of
    [animate] can do. *)
Definition animateEvents (distance : number) (intensity : nat -> Q -> Q)
  (position : THREE.Vector3) : list Event :=
  [Frame distance; Flicker intensity; ControlsUpdate position].

(** The frames of a distance sequence, each with its outcome and the
    effects it issued. *)
Fixpoint frames (ds : list number) (w : World) : list (outcome unit * list Effect) :=
  match ds with
  | [] => []
  | d :: r =>
      let res := tick d w in
      (outcomeOf res, effectsOf res) :: frames r (worldOf res)
  end.

(** The world after the scale updates of a distance sequence. *)
Definition afterFrames (ds : list number) (w : World) : World :=
  run (map Frame ds) w.

(** A batch is a frame that issued something. *)
Definition isBatch (f : outcome unit * list Effect) : bool :=
  match snd f with
  | [] => false
  | _ :: _ => true
  end.

Definition calls (l : list Effect) : list MethodCall :=
  flat_map (fun e => match e with Call c => [c] | Animate _ => [] end) l.

Definition tweens (l : list Effect) : list GSAP.Tween :=
  flat_map (fun e => match e with Animate tw => [tw] | Call _ => [] end) l.

Definition exampleStadium : THREE.Object3D :=
  THREE.mkObject3D (THREE.mkNode false true THREE.NoMaterial)
    [ THREE.mkNode true true (THREE.SingleMaterial (THREE.mkMaterial false 1));
      THREE.mkNode true true
        (THREE.MaterialArray [THREE.mkMaterial false 1; THREE.mkMaterial false 1]) ].


(** Camera and controls exist, as they do once [init] has run. *)
Definition ready (w : World) : bool :=
  match camera (this w), controls (this w) with
  | Some _, Some _ => true
  | _, _ => false
  end.

Definition stadiumOf (w : World) : option THREE.Object3D :=
  SceneElements.stadium (This.sceneElements (this w)).

Definition appStateOf (w : World) : AppState := This.appState (this w).

(** The three scene objects, and the one a method call goes to. *)
Inductive SceneObject : Type := TheSphere | TheStadium | TheLighting.

Definition SceneObject_eqb (a b : SceneObject) : bool :=
  match a, b with
  | TheSphere, TheSphere | TheStadium, TheStadium | TheLighting, TheLighting => true
  | _, _ => false
  end.

Definition receiver (c : MethodCall) : SceneObject :=
  match c with
  | sphere_updateVisibility _ _ => TheSphere
  | stadiumLoader_updateStadiumVisibility _ _ => TheStadium
  | lightingSystem_updateFloodlightIntensity _ _ => TheLighting
  end.

(** The direction of a call, show or hide, and the duration it carries:
    the argument when one is written at the call site, the default of the
    callee's parameter otherwise. *)
Definition direction (c : MethodCall) : bool :=
  match c with
  | sphere_updateVisibility visible _ => visible
  | stadiumLoader_updateStadiumVisibility visible _ => visible
  | lightingSystem_updateFloodlightIntensity isDetailMode _ => isDetailMode
  end.

Definition commandDuration (c : MethodCall) : Q :=
  match c with
  | sphere_updateVisibility _ duration => resolveDuration duration
  | stadiumLoader_updateStadiumVisibility _ duration => resolveDuration duration
  | lightingSystem_updateFloodlightIntensity _ duration => resolveDuration duration
  end.

Definition callsTo (o : SceneObject) (l : list Effect) : list MethodCall :=
  filter (fun c => SceneObject_eqb (receiver c) o) (calls l).

Definition owner (t : GSAP.Target) : option SceneObject :=
  match t with
  | GSAP.CameraPosition => None
  | GSAP.SphereGroup | GSAP.SphereScale => Some TheSphere
  | GSAP.StadiumMaterial _ _ => Some TheStadium
  | GSAP.Floodlight _ => Some TheLighting
  end.

Definition tweensOn (o : SceneObject) (l : list Effect) : list GSAP.Tween :=
  filter (fun tw => match owner (GSAP.target tw) with
                    | Some o' => SceneObject_eqb o' o
                    | None => false
                    end) (tweens l).

(** The calls a change to scale [new] makes in world [w]: the sphere and
    the lighting are called when the flag kept for them differs from what
    the new scale asks for; the stadium, for which no flag is kept, is
    called when it is there. *)
Definition callsOnChange (w : World) (new : ZoomScale) : list MethodCall :=
  (if negb (Bool.eqb (ZoomScale_eqb new sphere) (sphereVisible (appStateOf w))) then
     match This.sphere (this w) with
     | Some _ => [sphere_updateVisibility (ZoomScale_eqb new sphere) None]
     | None => []
     end
   else []) ++
  (match stadiumOf w with
   | Some _ => [stadiumLoader_updateStadiumVisibility (negb (ZoomScale_eqb new sphere)) None]
   | None => []
   end) ++
  (if negb (Bool.eqb (ZoomScale_eqb new detail) (stadiumDetailVisible (appStateOf w))) then
     match This.lightingSystem (this w) with
     | Some _ => [lightingSystem_updateFloodlightIntensity (ZoomScale_eqb new detail) None]
     | None => []
     end
   else []).

Definition lastsFadeTime (tw : GSAP.Tween) : Prop :=
  GSAP.duration tw = 0.8.

(** The opacities of the stadium's materials, in traversal order. *)
Definition opacities (w : World) : list Q :=
  match stadiumOf w with
  | Some s =>
      flat_map (fun n => map THREE.opacity (StadiumLoader.materialsOf (THREE.material n)))
        (THREE.traverse s)
  | None => []
  end.

(** A page that zoomed in to the stadium scale and whose three fade-in
    tweens on the stadium materials have run to their end. *)
Definition stadiumShown : World :=
  run [Frame 1800; TweenComplete 3; TweenComplete 3; TweenComplete 3]
    (started true (Some exampleStadium)).

(** Every material of every mesh of the object has the given opacity. *)
Definition meshOpacityIs (o : Q) (s : THREE.Object3D) : Prop :=
  Forall (fun n => THREE.isMesh n = false \/
                   Forall (fun m => THREE.opacity m = o)
                     (StadiumLoader.materialsOf (THREE.material n)))
    (THREE.traverse s).

(** The two flags say what the current scale says. *)
Definition flagsFollowScale (a : AppState) : Prop :=
  (sphereVisible a = true <-> currentZoomScale a = sphere) /\
  (stadiumDetailVisible a = true <-> currentZoomScale a = detail).

(** What no event can change on a page without the engine and with no
    tween in flight. *)
Definition frozen (w0 w : World) : Prop :=
  gsapLoaded w = false /\
  timeline w = [] /\
  controls (this w) = controls (this w0) /\
  hasSeenIntroSequence (appStateOf w) = hasSeenIntroSequence (appStateOf w0).

Definition isControlsUpdate (e : Event) : bool :=
  match e with
  | ControlsUpdate _ => true
  | _ => false
  end.

(** The events in which [camera.position] is written: [controls.update()]
    and the renders of the engine. *)
Definition writesCamera (e : Event) : bool :=
  match e with
  | ControlsUpdate _ | TweenRender _ _ _ | TweenComplete _ | TweenCompleteShared _ _ => true
  | Frame _ | KeyDown _ | Flicker _ => false
  end.

Definition inputDisabled : THREE.OrbitControls := THREE.mkOrbitControls false false false.

Definition inputEnabled : THREE.OrbitControls := THREE.mkOrbitControls true true true.

(* ------------------------------------------------------------------ *)
(** ** utils/performance.ts *)

Module Performance.

Inductive PerformanceMode : Type := high | low.

Record AppConfig : Type := mkAppConfig {
  performanceMode : PerformanceMode;
  isMobile : bool;
  isLowEnd : bool;
  effectsEnabled : bool
}.

Record ParticleCount : Type := mkParticleCount {
  dust : nat;
  stars : nat;
  smallStars : nat;
  lightDots : nat
}.

Record Settings : Type := mkSettings {
  pixelRatio : number;
  antialias : bool;
  shadows : bool;
  postProcessing : bool;
  particleCount : ParticleCount
}.

(** The alternatives of the regular expression
    [/Android|webOS|iPhone|iPad|iPod|BlackBerry|IEMobile|Opera Mini/i]. *)
Definition mobileTokens : list string :=
  [ "Android"; "webOS"; "iPhone"; "iPad"; "iPod"; "BlackBerry"; "IEMobile";
    "Opera Mini" ]%string.

(** [p] matches at the start of [s], letters compared without case. *)
Fixpoint prefixCI (p s : string) : bool :=
  match p, s with
  | EmptyString, _ => true
  | String _ _, EmptyString => false
  | String a p', String b s' =>
      Ascii.eqb (lowerAscii a) (lowerAscii b) && prefixCI p' s'
  end.

(** [p] matches somewhere in [s]. *)
Fixpoint containsCI (p s : string) : bool :=
  prefixCI p s ||
  match s with
  | EmptyString => false
  | String _ s' => containsCI p s'
  end.

(** [regex.test(navigator.userAgent)]. *)
Definition testMobile (userAgent : string) : bool :=
  existsb (fun tok => containsCI tok userAgent) mobileTokens.

(** [navigator.hardwareConcurrency <= 4]; a browser that does not report
    the property yields [undefined], which compares as NaN. *)
Definition atMost4 (hardwareConcurrency : option number) : bool :=
  match hardwareConcurrency with
  | Some n => geq 4 n
  | None => geq 4 NaN
  end.

(** [detectPerformance], with the two properties of [navigator] it reads
    as arguments. *)
Definition detectPerformance (userAgent : string)
  (hardwareConcurrency : option number) : AppConfig :=
  let isMobile := testMobile userAgent in
  let isLowEnd := atMost4 hardwareConcurrency || isMobile in
  {| performanceMode := if isLowEnd then low else high;
     isMobile := isMobile;
     isLowEnd := isLowEnd;
     effectsEnabled := negb isLowEnd |}.

(** [Math.min] of two numbers. *)
Definition mathMin (a b : number) : number :=
  match a, b with
  | NaN, _ | _, NaN => NaN
  | _, _ => if geq a b then b else a
  end.

(** [getPerformanceSettings], with [window.devicePixelRatio] as an
    argument. *)
Definition getPerformanceSettings (config : AppConfig)
  (devicePixelRatio : number) : Settings :=
  if isLowEnd config then
    {| pixelRatio := mathMin devicePixelRatio 1.5;
       antialias := false;
       shadows := false;
       postProcessing := false;
       particleCount := {| dust := 80; stars := 800; smallStars := 1000;
                           lightDots := 500 |} |}
  else
    {| pixelRatio := mathMin devicePixelRatio 2;
       antialias := true;
       shadows := true;
       postProcessing := true;
       particleCount := {| dust := 200; stars := 2000; smallStars := 2500;
                           lightDots := 1200 |} |}.

End Performance.

(* ------------------------------------------------------------------ *)
(** ** The rest of a frame and of the set-up in StadiumApp.ts *)

Module Display.

Inductive Pass : Type :=
| RenderPass
| UnrealBloomPass (strength radius threshold : Q).

(** The passes of the [EffectComposer]. *)
Definition Composer : Type := list Pass.

(** [initPostProcessing]: leaves [sceneElements.composer] as it is when
    post-processing is off. *)
Definition initPostProcessing (settings : Performance.Settings)
  (composer : option Composer) : option Composer :=
  if negb (Performance.postProcessing settings) then composer
  else Some [RenderPass; UnrealBloomPass 2.0 0.3 0.95].

(** The composer [init] leaves, starting from none. *)
Definition composerAfterInit (settings : Performance.Settings) : option Composer :=
  if Performance.postProcessing settings then initPostProcessing settings None
  else None.

(** [initRenderer]: [renderer.shadowMap.enabled = this.settings.shadows]. *)
Definition shadowMapEnabled (settings : Performance.Settings) : bool :=
  Performance.shadows settings.

(** [setupLighting]: a floodlight casts shadows when
    [config.effectsEnabled] holds; a new [SpotLight] casts none. *)
Definition floodlightCastsShadow (config : Performance.AppConfig) : bool :=
  if Performance.effectsEnabled config then true else false.

Inductive Rendered : Type :=
| ThroughComposer (c : Composer)
| Direct.

(** The last statement of [animate]. *)
Definition render (settings : Performance.Settings) (composer : option Composer)
  : Rendered :=
  match composer with
  | Some c => if Performance.postProcessing settings then ThroughComposer c else Direct
  | None => Direct
  end.

End Display.

Module Animation.

Section Flicker.

(** [Math.sin] is a function of its argument; [Math.random] is not, so the
    values its calls return in one frame are an input of that frame: [random
    i] is what the call made for light [i] returns. *)
Variable sin : Q -> Q.

(** [LightingSystem.animateFloodlights(time)]. *)
Definition animateFloodlights (random : nat -> Q) (time : Q)
  (ls : LightingSystem.t) : LightingSystem.t :=
  LightingSystem.mk
    (imapFrom (fun index baseIntensity =>
                 baseIntensity
                 + sin (time * 0.5 + inject_Z (Z.of_nat index)) * 1.5
                 + random index * 0.2)
       0 (LightingSystem.floodlights ls)).

(** [animate] up to its rendering statement, with the distance the frame
    measures, the time it reads, the random numbers it draws and the
    position at which [controls.update()] leaves the camera as arguments.
    The renderer is not part of the modelled state. *)
Definition animate (distance : number) (time : Q) (random : nat -> Q)
  (position : THREE.Vector3) : Exec unit :=
  StadiumApp.updateScaleBasedVisibility distance ;;
  a <- read This.appState ;;
  (if isAnimationPlaying a then
     l <- read This.lightingSystem ;;
     match l with
     | Some ls =>
         if ZoomScale_eqb (currentZoomScale a) detail then
           modify (setLightingSystem (Some (animateFloodlights random time ls)))
         else ret tt
     | None => ret tt
     end
   else ret tt) ;;
  controlsUpdate position.


End Flicker.

End Animation.

(** How far out a scale is. *)
Definition rank (s : ZoomScale) : nat :=
  match s with
  | detail => 0
  | stadium => 1
  | sphere => 2
  end.

(** What only the end of a tween can change: the input switches and the
    intro flag; and the tweens in flight only grow in number. *)
Definition quiet (w0 w : World) : Prop :=
  controls (this w) = controls (this w0) /\
  hasSeenIntroSequence (appStateOf w) = hasSeenIntroSequence (appStateOf w0) /\
  gsapLoaded w = gsapLoaded w0 /\
  exists tws, timeline w = timeline w0 ++ tws.


(** The world the floodlight block of a frame leaves, given the world its
    tick leaves: the floodlights flicker when the animation is playing, the
    scale is detail and the lighting exists. *)
Definition flickered (sin : Q -> Q) (random : nat -> Q) (time : Q) (w1 : World) : World :=
  if isAnimationPlaying (appStateOf w1)
     && ZoomScale_eqb (currentZoomScale (appStateOf w1)) detail
  then
    match This.lightingSystem (this w1) with
    | Some ls =>
        mkWorld (setLightingSystem
                   (Some (Animation.animateFloodlights sin random time ls)) (this w1))
          (gsapLoaded w1) (timeline w1)
    | None => w1
    end
  else w1.

(** The model and each of its meshes have the given visibility. *)
Definition visibilityIs (v : bool) (s : THREE.Object3D) : Prop :=
  THREE.visible (THREE.self s) = v /\
  Forall (fun n => THREE.isMesh n = false \/ THREE.visible n = v) (THREE.descendants s).

(** The stadium, when there is one, is visible exactly off the sphere
    scale. *)
Definition stadiumFollowsScale (w : World) : Prop :=
  match stadiumOf w with
  | Some s => visibilityIs (negb (ZoomScale_eqb (currentZoomScale (appStateOf w)) sphere)) s
  | None => True
  end.

Definition isCompletion (e : Event) : bool :=
  match e with
  | TweenComplete _ | TweenCompleteShared _ _ => true
  | _ => false
  end.

(** The intensity [animateFloodlights] assigns to light [index]. *)
Definition flickerIntensity (sin : Q -> Q) (random : nat -> Q) (time : Q)
  (index : nat) (baseIntensity : Q) : Q :=
  baseIntensity + sin (time * 0.5 + inject_Z (Z.of_nat index)) * 1.5 + random index * 0.2.

(** The number of materials on the meshes of an object. *)
Definition meshMaterialCount (s : THREE.Object3D) : nat :=
  list_sum (map (fun n => if THREE.isMesh n
                          then List.length (StadiumLoader.materialsOf (THREE.material n))
                          else O)
              (THREE.traverse s)).

(** Per object in traversal order, what [updateStadiumVisibility] never
    changes: whether it is a mesh and which of its materials are
    transparent. *)
Definition shape (s : THREE.Object3D) : list (bool * list bool) :=
  map (fun n => (THREE.isMesh n,
                 map THREE.transparent (StadiumLoader.materialsOf (THREE.material n))))
    (THREE.traverse s).

Definition opacitiesOf (s : THREE.Object3D) : list (list Q) :=
  map (fun n => map THREE.opacity (StadiumLoader.materialsOf (THREE.material n)))
    (THREE.traverse s).

Definition nonMeshes (l : list THREE.Node) : list THREE.Node :=
  filter (fun n => negb (THREE.isMesh n)) l.

Definition intensityFor (isDetailMode : bool) : Q :=
  if isDetailMode then 8.0 else 2.0.

(* ================================================================== *)
(** * Properties of the classifier *)

Section Classifier.

Lemma ZoomScale_eqb_eq (a b : ZoomScale) : ZoomScale_eqb a b = true <-> a = b.
Proof. destruct a, b; simpl; split; intro H; congruence. Qed.

Lemma ZoomScale_eqb_neq (a b : ZoomScale) : ZoomScale_eqb a b = false <-> a <> b.
Proof. destruct a, b; simpl; split; intro H; congruence. Qed.

Lemma Qle_bool_false (a b : Q) : Qle_bool a b = false <-> b < a.
Proof.
  split; intro H.
  - destruct (Qlt_le_dec b a) as [L|L]; [exact L|].
    apply Qle_bool_iff in L. congruence.
  - destruct (Qle_bool a b) eqn:E; [|reflexivity].
    apply Qle_bool_iff in E. lra.
Qed.

(** The three branches of the chain, on finite distances. *)
Lemma classify_finite (q : Q) :
  classify q = if Qle_bool 2500 q then sphere
               else if Qle_bool 500 q then stadium else detail.
Proof. reflexivity. Qed.

Lemma classify_sphere_iff (q : Q) : classify q = sphere <-> 2500 <= q.
Proof.
  rewrite classify_finite.
  destruct (Qle_bool 2500 q) eqn:E1.
  - apply Qle_bool_iff in E1. tauto.
  - apply Qle_bool_false in E1.
    destruct (Qle_bool 500 q); split; intro H; try discriminate; lra.
Qed.

Lemma classify_stadium_iff (q : Q) : classify q = stadium <-> 500 <= q /\ q < 2500.
Proof.
  rewrite classify_finite.
  destruct (Qle_bool 2500 q) eqn:E1; destruct (Qle_bool 500 q) eqn:E2;
    try apply Qle_bool_iff in E1; try apply Qle_bool_iff in E2;
    try apply Qle_bool_false in E1; try apply Qle_bool_false in E2;
    split; intro H; try discriminate; try lra; try reflexivity.
Qed.

Lemma classify_detail_iff (q : Q) : classify q = detail <-> q < 500.
Proof.
  rewrite classify_finite.
  destruct (Qle_bool 2500 q) eqn:E1; destruct (Qle_bool 500 q) eqn:E2;
    try apply Qle_bool_iff in E1; try apply Qle_bool_iff in E2;
    try apply Qle_bool_false in E1; try apply Qle_bool_false in E2;
    split; intro H; try discriminate; try lra; try reflexivity.
Qed.

(** C1. For every finite, non-negative distance the classifier answers with
    one and only one of the three scales, and the boundary distances 2500,
    500 and 1 go to the band that has them as its minimum. *)
Theorem classify_total_boundaries (q : Q) (Hq : 0 <= q) :
  (exists! s : ZoomScale, In s bands /\ classify q = s) /\
  ((classify q = sphere <-> 2500 <= q) /\
   (classify q = stadium <-> 500 <= q /\ q < 2500) /\
   (classify q = detail <-> q < 500)) /\
  (classify 2500 = sphere /\ min (SCALE_THRESHOLDS sphere) = 2500) /\
  (classify 500 = stadium /\ min (SCALE_THRESHOLDS stadium) = 500) /\
  (classify 1 = detail /\ min (SCALE_THRESHOLDS detail) = 1).
Proof.
  split; [|split; [|repeat split]].
  - exists (classify q). split.
    + split; [|reflexivity].
      unfold bands. destruct (classify q); simpl; auto.
    + intros s [_ Hs]. exact Hs.
  - split; [apply classify_sphere_iff|].
    split; [apply classify_stadium_iff|apply classify_detail_iff].
Qed.

Lemma classify_total_boundaries_witness :
  (exists! s : ZoomScale, In s bands /\ classify 0 = s) /\
  classify 2500 = sphere /\ classify 500 = stadium /\ classify 1 = detail.
Proof.
  destruct (classify_total_boundaries 0 (Qle_refl 0)) as [U [_ [[A _] [[B _] [C _]]]]].
  repeat split; assumption.
Defined.

(** C10. Every distance strictly below 500 is classified as detail: the
    band [1, 500), the gap below 1, the negative numbers and minus
    infinity alike. *)
Theorem below_500_is_detail (d : number) (H : lt d 500 = true) :
  classify d = detail.
Proof.
  destruct d as [| | |q]; simpl in H; try discriminate; try reflexivity.
  apply classify_detail_iff.
  apply negb_true_iff in H. apply Qle_bool_false in H. exact H.
Qed.

Lemma below_500_is_detail_witness :
  classify (1 # 2) = detail /\ classify (- (3)) = detail /\ classify NegInfinity = detail.
Proof.
  split; [|split].
  - apply (below_500_is_detail (1 # 2)). reflexivity.
  - apply (below_500_is_detail (- (3))). reflexivity.
  - apply (below_500_is_detail NegInfinity). reflexivity.
Defined.

(** A distance that is not a number fails both comparisons and ends in the
    last branch as well. *)
Lemma classify_NaN : classify NaN = detail.
Proof. reflexivity. Qed.

(** C7, as stated, fails in the gap: at distance 1/2 no band has a minimum
    at or below the distance, so the worded rule names no band, while the
    code answers detail, whose minimum 1 lies above the distance. *)
Lemma classify_gap_counterexample :
  classify_by_bands (1 # 2) = None /\
  classify (1 # 2) = detail /\
  minAtMost (1 # 2) detail = false /\
  classify_by_bands (1 # 2) <> Some (classify (1 # 2)).
Proof. repeat split. discriminate. Qed.

(** C7, amended.  The code returns the first band, in the order sphere,
    stadium, detail, whose interval [min, max) holds the distance; for a
    distance in no band it returns the first band whose minimum is at most
    the distance when there is one, and detail when there is none. *)
Theorem classify_first_band_else_detail (d : number) :
  classify d =
    match find (inBand d) bands with
    | Some s => s
    | None =>
        match find (minAtMost d) bands with
        | Some s => s
        | None => detail
        end
    end.
Proof.
  destruct d as [| | |q]; try reflexivity.
  unfold classify, bands, find, inBand, minAtMost. simpl.
  destruct (Qle_bool 2500 q) eqn:E1; simpl; [reflexivity|].
  destruct (Qle_bool 500 q) eqn:E2; simpl; [reflexivity|].
  destruct (Qle_bool 1 q) eqn:E3; simpl; reflexivity.
Qed.

End Classifier.

(* ================================================================== *)
(** * Properties of the orchestrator *)

Ltac open_world w :=
  let a := fresh "a" in
  destruct w as [[a [cam ctl st] sp ls] g tl];
  destruct a as [cur sv tv dv seen playing transitioning];
  unfold ready, camera, controls, stadiumOf, appStateOf in *;
  cbn [this This.sceneElements This.appState
    This.sphere This.lightingSystem SceneElements.camera SceneElements.controls
    SceneElements.stadium gsapLoaded timeline currentZoomScale sphereVisible
    stadiumDetailVisible hasSeenIntroSequence] in *.

Ltac exec_unfold :=
  unfold tick, StadiumApp.updateScaleBasedVisibility, StadiumApp.updateElementVisibility,
    StadiumApp.call_sphere_updateVisibility, StadiumApp.call_updateStadiumVisibility,
    StadiumApp.call_updateFloodlightIntensity.

Ltac exec_cbn :=
  cbn -[Sphere.updateVisibility StadiumLoader.updateStadiumVisibility
        LightingSystem.updateFloodlightIntensity classify ZoomScale_eqb Bool.eqb app].

(** Runs [tick d] on an opened world: one goal per path through the code. *)
Ltac tick_branches d cam ctl st sp ls cur sv dv :=
  exec_unfold; exec_cbn;
  destruct cam as [cam|]; exec_cbn; [|];
  [ destruct ctl as [ctl|]; exec_cbn; [|];
    [ destruct (ZoomScale_eqb (classify d) cur) eqn:Hscale; exec_cbn; [|];
      [ | destruct (Bool.eqb (ZoomScale_eqb (classify d) sphere) sv) eqn:Hsphere;
          exec_cbn;
          destruct sp as [sp|]; exec_cbn;
          destruct st as [st|]; exec_cbn;
          destruct (Bool.eqb (ZoomScale_eqb (classify d) detail) dv) eqn:Hdetail;
          exec_cbn;
          destruct ls as [ls|]; exec_cbn ]
    | ]
  | ].

Section Orchestrator.

Lemma tick_not_ready (d : number) (w : World) :
  ready w = false -> tick d w = (Throws TypeError, w, []).
Proof.
  open_world w. intros H.
  tick_branches d cam ctl st sp ls cur sv dv; try discriminate H; reflexivity.
Qed.

Lemma tick_same_scale (d : number) (w : World) :
  ready w = true -> classify d = currentZoomScale (appStateOf w) ->
  tick d w = (Returns tt, w, []).
Proof.
  open_world w. intros H E.
  tick_branches d cam ctl st sp ls cur sv dv; try discriminate H; try reflexivity.
  all: apply ZoomScale_eqb_neq in Hscale; contradiction.
Qed.

Lemma tick_returns (d : number) (w : World) :
  ready w = true -> outcomeOf (tick d w) = Returns tt.
Proof.
  open_world w. intros H.
  tick_branches d cam ctl st sp ls cur sv dv; try discriminate H; reflexivity.
Qed.

Lemma tick_scale (d : number) (w : World) :
  ready w = true -> currentZoomScale (appStateOf (worldOf (tick d w))) = classify d.
Proof.
  open_world w. intros H.
  tick_branches d cam ctl st sp ls cur sv dv; try discriminate H; try reflexivity.
  apply ZoomScale_eqb_eq in Hscale. symmetry. exact Hscale.
Qed.

Lemma tick_ready (d : number) (w : World) :
  ready (worldOf (tick d w)) = ready w.
Proof.
  open_world w.
  tick_branches d cam ctl st sp ls cur sv dv; reflexivity.
Qed.

(** Splitting an effect list into its calls and its tweens. *)
Lemma calls_app (l1 l2 : list Effect) : calls (l1 ++ l2) = calls l1 ++ calls l2.
Proof. unfold calls. apply flat_map_app. Qed.

Lemma tweens_app (l1 l2 : list Effect) : tweens (l1 ++ l2) = tweens l1 ++ tweens l2.
Proof. unfold tweens. apply flat_map_app. Qed.

Lemma calls_Animate (tws : list GSAP.Tween) : calls (map Animate tws) = [].
Proof. induction tws as [|tw r IH]; simpl; auto. Qed.

Lemma tweens_Animate (tws : list GSAP.Tween) : tweens (map Animate tws) = tws.
Proof. induction tws as [|tw r IH]; simpl; congruence. Qed.

Lemma calls_Call (c : MethodCall) : calls [Call c] = [c].
Proof. reflexivity. Qed.

Lemma tweens_Call (c : MethodCall) : tweens [Call c] = [].
Proof. reflexivity. Qed.

Lemma calls_nil : calls [] = [].
Proof. reflexivity. Qed.

Lemma tweens_nil : tweens [] = [].
Proof. reflexivity. Qed.

Ltac split_effects :=
  unfold effectsOf; cbn [snd fst];
  repeat (rewrite calls_app || rewrite tweens_app || rewrite calls_Animate
          || rewrite tweens_Animate || rewrite calls_Call || rewrite tweens_Call
          || rewrite calls_nil || rewrite tweens_nil
          || rewrite app_nil_r || rewrite app_nil_l).

(** *** Who is called on a scale change *)

(** C3, as stated, fails for the stadium.  The page has zoomed in to the
    stadium scale and the stadium was commanded visible; on the change from
    stadium to detail its desired visibility is the same, and it is called
    again. *)
Lemma stadium_called_again_counterexample :
  let w := afterFrames [Finite 1800] (started true (Some exampleStadium)) in
  currentZoomScale (appStateOf w) = stadium /\
  classify 300 = detail /\
  option_map (fun s => THREE.visible (THREE.self s)) (stadiumOf w) = Some true /\
  callsTo TheStadium (effectsOf (tick 300 w)) =
    [stadiumLoader_updateStadiumVisibility true None] /\
  callsTo TheStadium (effectsOf (tick 300 w)) <> [].
Proof. vm_compute. repeat split; discriminate. Qed.

(** C3, amended.  On a genuine scale change the sphere and the lighting are
    called only when the flag kept for them differs from what the new scale
    asks for; the stadium, for which no flag is kept, is called on every
    genuine scale change when it is there; no object is called twice. *)
Theorem scale_change_calls (w : World) (d : number)
  (Hready : ready w = true)
  (Hchange : ZoomScale_eqb (classify d) (currentZoomScale (appStateOf w)) = false) :
  calls (effectsOf (tick d w)) = callsOnChange w (classify d) /\
  callsTo TheStadium (effectsOf (tick d w)) =
    match stadiumOf w with
    | Some _ => [stadiumLoader_updateStadiumVisibility
                   (negb (ZoomScale_eqb (classify d) sphere)) None]
    | None => []
    end /\
  forall o : SceneObject, Nat.le (List.length (callsTo o (effectsOf (tick d w)))) 1.
Proof.
  assert (E : calls (effectsOf (tick d w)) = callsOnChange w (classify d)).
  { open_world w. unfold callsOnChange.
    cbn [this This.sphere This.lightingSystem This.sceneElements
         SceneElements.stadium This.appState sphereVisible stadiumDetailVisible].
    tick_branches d cam ctl st sp ls cur sv dv;
      try discriminate Hready; try congruence.
    all: split_effects; reflexivity. }
  split; [exact E|].
  unfold callsTo. rewrite E. unfold callsOnChange.
  split.
  - destruct (negb (Bool.eqb (ZoomScale_eqb (classify d) sphere) (sphereVisible (appStateOf w))));
      destruct (This.sphere (this w));
      destruct (stadiumOf w);
      destruct (negb (Bool.eqb (ZoomScale_eqb (classify d) detail)
                        (stadiumDetailVisible (appStateOf w))));
      destruct (This.lightingSystem (this w)); reflexivity.
  - intros o.
    destruct (negb (Bool.eqb (ZoomScale_eqb (classify d) sphere) (sphereVisible (appStateOf w))));
      destruct (This.sphere (this w));
      destruct (stadiumOf w);
      destruct (negb (Bool.eqb (ZoomScale_eqb (classify d) detail)
                        (stadiumDetailVisible (appStateOf w))));
      destruct (This.lightingSystem (this w)); destruct o; simpl; unfold Nat.le; lia.
Qed.

Lemma scale_change_calls_witness :
  let w := afterFrames [Finite 1800] (started true (Some exampleStadium)) in
  calls (effectsOf (tick 300 w)) =
    [stadiumLoader_updateStadiumVisibility true None;
     lightingSystem_updateFloodlightIntensity true None] /\
  forall o : SceneObject, Nat.le (List.length (callsTo o (effectsOf (tick 300 w)))) 1.
Proof.
  intros w.
  destruct (scale_change_calls w 300 eq_refl eq_refl) as [E [_ H]].
  split; [|exact H].
  rewrite E. reflexivity.
Defined.

(** *** How long the transitions take *)

Lemma imapFrom_Forall {A B : Type} (P : B -> Prop) (f : nat -> A -> B) (l : list A) :
  (forall i a, P (f i a)) -> forall i, Forall P (imapFrom f i l).
Proof.
  intros H. induction l as [|a r IH]; intros i; simpl; constructor; auto.
Qed.

Lemma iflatMapFrom_Forall {A B : Type} (P : B -> Prop) (f : nat -> A -> list B)
  (l : list A) :
  (forall i a, Forall P (f i a)) -> forall i, Forall P (iflatMapFrom f i l).
Proof.
  intros H. induction l as [|a r IH]; intros i; simpl.
  - constructor.
  - apply Forall_app. split; auto.
Qed.

Lemma iflatMapFrom_nil {A B : Type} (f : nat -> A -> list B) (l : list A) :
  (forall i a, f i a = []) -> forall i, iflatMapFrom f i l = [].
Proof.
  intros H. induction l as [|a r IH]; intros i; simpl; auto.
  rewrite H, IH. reflexivity.
Qed.

Lemma sphere_tweens_last (g visible : bool) :
  Forall lastsFadeTime (Sphere.updateVisibility g visible None).
Proof. destruct g; simpl; repeat constructor. Qed.

Lemma lighting_tweens_last (g : bool) (ls : LightingSystem.t) (isDetailMode : bool) :
  Forall lastsFadeTime
    (snd (LightingSystem.updateFloodlightIntensity g ls isDetailMode None)).
Proof.
  unfold LightingSystem.updateFloodlightIntensity. destruct g; simpl.
  - apply imapFrom_Forall. intros i a. reflexivity.
  - constructor.
Qed.

Lemma visitTweens_last (g visible : bool) (i : nat) (n : THREE.Node) :
  Forall lastsFadeTime
    (StadiumLoader.visitTweens g visible (resolveDuration None) i n).
Proof.
  unfold StadiumLoader.visitTweens, StadiumLoader.materialTweens.
  destruct (THREE.isMesh n), visible, g; try constructor.
  apply imapFrom_Forall. intros j a. reflexivity.
Qed.

Lemma stadium_tweens_last (g : bool) (s : THREE.Object3D) (visible : bool) :
  Forall lastsFadeTime
    (snd (StadiumLoader.updateStadiumVisibility g s visible None)).
Proof.
  unfold StadiumLoader.updateStadiumVisibility. cbn [snd].
  apply iflatMapFrom_Forall. intros i n. apply visitTweens_last.
Qed.

Lemma visitTweens_hide (g : bool) (q : Q) (i : nat) (n : THREE.Node) :
  StadiumLoader.visitTweens g false q i n = [].
Proof.
  unfold StadiumLoader.visitTweens, StadiumLoader.materialTweens.
  destruct (THREE.isMesh n); reflexivity.
Qed.

Lemma visitTweens_no_engine (visible : bool) (q : Q) (i : nat) (n : THREE.Node) :
  StadiumLoader.visitTweens false visible q i n = [].
Proof.
  unfold StadiumLoader.visitTweens, StadiumLoader.materialTweens.
  destruct (THREE.isMesh n), visible; reflexivity.
Qed.

Lemma stadium_hide_no_tween (g : bool) (s : THREE.Object3D) :
  snd (StadiumLoader.updateStadiumVisibility g s false None) = [].
Proof.
  unfold StadiumLoader.updateStadiumVisibility. cbn [snd].
  apply iflatMapFrom_nil. intros i n. apply visitTweens_hide.
Qed.

Lemma stadium_no_engine_no_tween (s : THREE.Object3D) (visible : bool) :
  snd (StadiumLoader.updateStadiumVisibility false s visible None) = [].
Proof.
  unfold StadiumLoader.updateStadiumVisibility. cbn [snd].
  apply iflatMapFrom_nil. intros i n. apply visitTweens_no_engine.
Qed.

Lemma visitNode_hide_opacity (g : bool) (n : THREE.Node) :
  THREE.isMesh (StadiumLoader.visitNode g false n) = false \/
  Forall (fun m => THREE.opacity m = 0.0)
    (StadiumLoader.materialsOf (THREE.material (StadiumLoader.visitNode g false n))).
Proof.
  unfold StadiumLoader.visitNode.
  destruct (THREE.isMesh n) eqn:E; [right|left; exact E].
  cbn [THREE.material]. destruct (THREE.material n) as [|m|ms]; simpl.
  - constructor.
  - repeat constructor.
  - induction ms as [|m r IH]; simpl; constructor; auto.
Qed.

Lemma stadium_hide_opacity (g : bool) (s : THREE.Object3D) :
  meshOpacityIs 0.0 (fst (StadiumLoader.updateStadiumVisibility g s false None)).
Proof.
  unfold meshOpacityIs, StadiumLoader.updateStadiumVisibility, THREE.traverse.
  cbn [fst THREE.self THREE.descendants].
  constructor.
  - apply visitNode_hide_opacity.
  - induction (THREE.descendants s) as [|n r IH]; simpl; constructor; auto.
    apply visitNode_hide_opacity.
Qed.

Lemma tick_tweens_last (w : World) (d : number) :
  Forall lastsFadeTime (tweens (effectsOf (tick d w))).
Proof.
  open_world w.
  tick_branches d cam ctl st sp ls cur sv dv.
  all: split_effects.
  all: repeat first
    [ apply sphere_tweens_last | apply lighting_tweens_last
    | apply stadium_tweens_last | apply Forall_nil | apply Forall_app; split ].
Qed.

Lemma imapFrom_length {A B : Type} (f : nat -> A -> B) (l : list A) :
  forall i, List.length (imapFrom f i l) = List.length l.
Proof. induction l as [|a r IH]; intros i; simpl; auto. Qed.

(** Hiding the stadium is immediate.  The stadium is shown with its
    materials at opacity 1; on the change back to the sphere scale it is
    called with [visible = false] and the default duration, no tween is
    started on any of its materials, and their opacity is 0 when the call
    returns. *)
Example stadium_hide_is_immediate :
  let r := tick 3000 stadiumShown in
  Forall (fun o => o == 1.0) (opacities stadiumShown) /\
  List.length (opacities stadiumShown) = 3%nat /\
  callsTo TheStadium (effectsOf r) = [stadiumLoader_updateStadiumVisibility false None] /\
  map commandDuration (callsTo TheStadium (effectsOf r)) = [0.8] /\
  tweensOn TheStadium (effectsOf r) = [] /\
  opacities (worldOf r) = [0.0; 0.0; 0.0].
Proof.
  vm_compute. repeat split. repeat constructor.
Qed.

(** What the duration of a command is used for: every tween a scale change
    starts lasts 0.8 seconds, the two tweens of the sphere and the one per
    floodlight in both directions, and the one per stadium material when
    the stadium is shown.  Hiding the stadium starts no tween: the opacity
    of its materials is set to 0 at once. *)
Lemma scale_change_tweens_last_fade_time (w : World) (d : number)
  (visible : bool) (ls : LightingSystem.t) (s : THREE.Object3D) (g : bool) :
  Forall lastsFadeTime (tweens (effectsOf (tick d w))) /\
  (Forall lastsFadeTime (Sphere.updateVisibility true visible None) /\
   List.length (Sphere.updateVisibility true visible None) = 2%nat) /\
  (Forall lastsFadeTime
     (snd (LightingSystem.updateFloodlightIntensity true ls visible None)) /\
   List.length (snd (LightingSystem.updateFloodlightIntensity true ls visible None)) =
     List.length (LightingSystem.floodlights ls)) /\
  Forall lastsFadeTime (snd (StadiumLoader.updateStadiumVisibility g s true None)) /\
  (snd (StadiumLoader.updateStadiumVisibility g s false None) = [] /\
   meshOpacityIs 0.0 (fst (StadiumLoader.updateStadiumVisibility g s false None))).
Proof.
  split; [apply tick_tweens_last|].
  split; [split; [apply sphere_tweens_last|destruct visible; reflexivity]|].
  split; [split; [apply lighting_tweens_last|]|].
  { unfold LightingSystem.updateFloodlightIntensity. cbn [snd].
    apply imapFrom_length. }
  split; [apply stadium_tweens_last|].
  split; [apply stadium_hide_no_tween|apply stadium_hide_opacity].
Qed.

Lemma tick_calls_carry_fade_time (w : World) (d : number) :
  Forall (fun c => commandDuration c = 0.8) (calls (effectsOf (tick d w))).
Proof.
  open_world w.
  tick_branches d cam ctl st sp ls cur sv dv.
  all: split_effects.
  all: repeat first
    [ apply Forall_nil | apply Forall_app; split
    | apply Forall_cons; [reflexivity|] ].
Qed.

(** The tweens a scene object starts last as long as the command says. *)
Lemma tweens_last_as_commanded (g visible : bool) (duration : option Q)
  (ls : LightingSystem.t) (s : THREE.Object3D) :
  Forall (fun tw => GSAP.duration tw =
                    commandDuration (sphere_updateVisibility visible duration))
    (Sphere.updateVisibility g visible duration) /\
  Forall (fun tw => GSAP.duration tw =
                    commandDuration (stadiumLoader_updateStadiumVisibility visible duration))
    (snd (StadiumLoader.updateStadiumVisibility g s visible duration)) /\
  Forall (fun tw => GSAP.duration tw =
                    commandDuration (lightingSystem_updateFloodlightIntensity visible duration))
    (snd (LightingSystem.updateFloodlightIntensity g ls visible duration)).
Proof.
  split; [|split].
  - destruct g; simpl; repeat constructor.
  - unfold StadiumLoader.updateStadiumVisibility. cbn [snd].
    apply iflatMapFrom_Forall. intros i n.
    unfold StadiumLoader.visitTweens, StadiumLoader.materialTweens.
    destruct (THREE.isMesh n), visible, g; try constructor.
    apply imapFrom_Forall. intros j a. reflexivity.
  - unfold LightingSystem.updateFloodlightIntensity. destruct g; simpl.
    + apply imapFrom_Forall. intros i a. reflexivity.
    + constructor.
Qed.

(** C5.  Every command that a scale change issues carries the fade time of
    0.8 seconds, whatever the page and the distance: the orchestrator
    writes no duration at any of its three call sites, and the default of
    the parameter is 0.8 in each of the three callees.  Each of the three
    scene objects is commanded in both directions, show and hide, by some
    scale change; the duration a command carries is the one its callee
    gives to the tweens it starts, so that every tween of a scale change
    lasts 0.8 seconds as well. *)
Theorem scale_change_commands_carry_fade_time (w : World) (d : number) :
  Forall (fun c => commandDuration c = 0.8) (calls (effectsOf (tick d w))) /\
  Forall lastsFadeTime (tweens (effectsOf (tick d w))) /\
  (forall (o : SceneObject) (visible : bool),
     exists (w' : World) (d' : number) (c : MethodCall),
       In c (calls (effectsOf (tick d' w'))) /\
       receiver c = o /\ direction c = visible /\ commandDuration c = 0.8) /\
  (forall (g visible : bool) (duration : option Q)
          (ls : LightingSystem.t) (s : THREE.Object3D),
     Forall (fun tw => GSAP.duration tw =
                       commandDuration (sphere_updateVisibility visible duration))
       (Sphere.updateVisibility g visible duration) /\
     Forall (fun tw => GSAP.duration tw =
                       commandDuration (stadiumLoader_updateStadiumVisibility visible duration))
       (snd (StadiumLoader.updateStadiumVisibility g s visible duration)) /\
     Forall (fun tw => GSAP.duration tw =
                       commandDuration (lightingSystem_updateFloodlightIntensity
                                          visible duration))
       (snd (LightingSystem.updateFloodlightIntensity g ls visible duration))).
Proof.
  split; [apply tick_calls_carry_fade_time|].
  split; [apply tick_tweens_last|].
  split; [|intros; apply tweens_last_as_commanded].
  intros o visible.
  pose (w0 := started true (Some exampleStadium)).
  destruct o, visible.
  - exists (afterFrames [Finite 1800] w0), 3000, (sphere_updateVisibility true None).
    split; [vm_compute; auto|repeat split].
  - exists w0, 1800, (sphere_updateVisibility false None).
    split; [vm_compute; auto|repeat split].
  - exists w0, 1800, (stadiumLoader_updateStadiumVisibility true None).
    split; [vm_compute; auto|repeat split].
  - exists (afterFrames [Finite 1800] w0), 3000,
      (stadiumLoader_updateStadiumVisibility false None).
    split; [vm_compute; auto|repeat split].
  - exists w0, 300, (lightingSystem_updateFloodlightIntensity true None).
    split; [vm_compute; auto|repeat split].
  - exists (afterFrames [Finite 300] w0), 1800,
      (lightingSystem_updateFloodlightIntensity false None).
    split; [vm_compute; auto|repeat split].
Qed.

(** The commands of the change from the stadium scale back to the sphere
    scale and of the change from detail to stadium, with the durations
    they carry. *)
Example zoom_out_example :
  let w0 := started true (Some exampleStadium) in
  map (fun c => (c, commandDuration c))
    (calls (effectsOf (tick 3000 (afterFrames [Finite 1800] w0)))) =
    [ (sphere_updateVisibility true None, 0.8);
      (stadiumLoader_updateStadiumVisibility false None, 0.8) ] /\
  map (fun c => (c, commandDuration c))
    (calls (effectsOf (tick 1800 (afterFrames [Finite 300] w0)))) =
    [ (stadiumLoader_updateStadiumVisibility true None, 0.8);
      (lightingSystem_updateFloodlightIntensity false None, 0.8) ].
Proof. split; reflexivity. Qed.

(** Showing the example stadium with the engine loaded starts one tween
    per material, three in all, each lasting 0.8 seconds. *)
Example stadium_show_example :
  map (fun tw => (GSAP.target tw, GSAP.duration tw))
    (tweensOn TheStadium
       (effectsOf (tick 1800 (started true (Some exampleStadium))))) =
  [ (GSAP.StadiumMaterial 1 0, 0.8);
    (GSAP.StadiumMaterial 2 0, 0.8);
    (GSAP.StadiumMaterial 2 1, 0.8) ].
Proof. reflexivity. Qed.

(** The calls of the frames at distances 2600, 2000 and 100 on a started
    page: none; sphere hidden and stadium shown; stadium shown again and
    lighting raised. *)
Example zoom_in_example :
  map (fun f => calls (snd f))
    (frames [Finite 2600; Finite 2000; Finite 100]
       (started true (Some exampleStadium))) =
  [ [];
    [sphere_updateVisibility false None; stadiumLoader_updateStadiumVisibility true None];
    [stadiumLoader_updateStadiumVisibility true None;
     lightingSystem_updateFloodlightIntensity true None] ].
Proof. reflexivity. Qed.

(** *** The guard on the current scale *)

Lemma tick_again_noop (w : World) (d d' : number) :
  classify d' = classify d ->
  effectsOf (tick d' (worldOf (tick d w))) = [] /\
  worldOf (tick d' (worldOf (tick d w))) = worldOf (tick d w).
Proof.
  intros Hsame.
  destruct (ready w) eqn:R.
  - assert (R1 : ready (worldOf (tick d w)) = true) by (rewrite tick_ready; exact R).
    assert (E : classify d' = currentZoomScale (appStateOf (worldOf (tick d w)))).
    { rewrite tick_scale by exact R. exact Hsame. }
    rewrite (tick_same_scale d' _ R1 E). split; reflexivity.
  - rewrite (tick_not_ready d w R). cbn [worldOf fst snd].
    rewrite (tick_not_ready d' w R). split; reflexivity.
Qed.

Lemma frames_again_noop (w : World) (d : number) (ds : list number) :
  Forall (fun d' => classify d' = classify d) ds ->
  Forall (fun f => snd f = []) (frames ds (worldOf (tick d w))) /\
  afterFrames ds (worldOf (tick d w)) = worldOf (tick d w).
Proof.
  induction 1 as [|d' r Hd' Hr [IHf IHw]].
  - split; [constructor|reflexivity].
  - destruct (tick_again_noop w d d' Hd') as [E W].
    unfold afterFrames in *. cbn [frames map run handle]. rewrite W.
    split; [constructor; [exact E|exact IHf]|exact IHw].
Qed.

(** C2. Once a tick has run at distance [d], every further tick whose
    distance falls in the same scale issues nothing and changes nothing;
    and the distances 3000, 3000, 1800, 1800, 300 fed to a page in its
    initial sphere state, be it fully started or still loading the stadium,
    give two batches, at the third and at the fifth frame. *)
Theorem same_scale_tick_is_noop (w : World) (d : number) (ds : list number)
  (g : bool) (loaded : option THREE.Object3D)
  (Hsame : Forall (fun d' => classify d' = classify d) ds) :
  (Forall (fun f => snd f = []) (frames ds (worldOf (tick d w))) /\
   afterFrames ds (worldOf (tick d w)) = worldOf (tick d w)) /\
  (map isBatch (frames [Finite 3000; Finite 3000; Finite 1800; Finite 1800; Finite 300]
                  (started g loaded))
     = [false; false; true; false; true] /\
   List.length (filter isBatch
             (frames [Finite 3000; Finite 3000; Finite 1800; Finite 1800; Finite 300]
                (started g loaded))) = 2%nat /\
   map isBatch (frames [Finite 3000; Finite 3000; Finite 1800; Finite 1800; Finite 300]
                  (loading g))
     = [false; false; true; false; true]).
Proof.
  split.
  - apply frames_again_noop. exact Hsame.
  - destruct g, loaded as [o|]; repeat split; reflexivity.
Qed.

Lemma same_scale_tick_is_noop_witness :
  let w := started true (Some exampleStadium) in
  let ds := [Finite 2000; Finite 1800; Finite 600] in
  Forall (fun f => snd f = []) (frames ds (worldOf (tick 1800 w))) /\
  afterFrames ds (worldOf (tick 1800 w)) = worldOf (tick 1800 w).
Proof.
  intros w ds.
  refine (proj1 (same_scale_tick_is_noop w 1800 ds true None _)).
  repeat constructor.
Defined.

(** *** A page without the stadium *)

Lemma tick_without_stadium (d : number) (w : World) :
  ready w = true -> stadiumOf w = None ->
  outcomeOf (tick d w) = Returns tt /\
  callsTo TheStadium (effectsOf (tick d w)) = [] /\
  stadiumOf (worldOf (tick d w)) = None.
Proof.
  open_world w. intros R N. unfold callsTo.
  tick_branches d cam ctl st sp ls cur sv dv;
    try discriminate R; try discriminate N.
  all: split_effects; repeat split; assumption.
Qed.

Lemma frames_without_stadium (ds : list number) :
  forall w : World, ready w = true -> stadiumOf w = None ->
  Forall (fun f => fst f = Returns tt /\ callsTo TheStadium (snd f) = [])
    (frames ds w) /\
  stadiumOf (afterFrames ds w) = None.
Proof.
  induction ds as [|d r IH]; intros w R N.
  - split; [constructor|exact N].
  - destruct (tick_without_stadium d w R N) as [O [C S]].
    assert (R1 : ready (worldOf (tick d w)) = true) by (rewrite tick_ready; exact R).
    destruct (IH _ R1 S) as [F S'].
    split.
    + simpl. constructor; [split; assumption|exact F].
    + exact S'.
Qed.

(** C6. With camera and controls in place and no stadium, no frame throws,
    no frame calls the stadium, and no stadium appears; this holds for every
    distance sequence, the sweep 3000, 1800, 300, 1800, 3000 on a page
    started without a stadium among them. *)
Theorem ticks_without_stadium_never_throw (w : World) (ds : list number) (g : bool)
  (Hready : ready w = true) (Hnone : stadiumOf w = None) :
  (Forall (fun f => fst f = Returns tt /\ callsTo TheStadium (snd f) = [])
     (frames ds w) /\
   stadiumOf (afterFrames ds w) = None) /\
  (map fst (frames [Finite 3000; Finite 1800; Finite 300; Finite 1800; Finite 3000]
              (started g None))
     = [Returns tt; Returns tt; Returns tt; Returns tt; Returns tt] /\
   stadiumOf (afterFrames [Finite 3000; Finite 1800; Finite 300; Finite 1800; Finite 3000]
                (started g None)) = None).
Proof.
  split.
  - apply frames_without_stadium; assumption.
  - destruct g; split; reflexivity.
Qed.

Lemma ticks_without_stadium_never_throw_witness :
  let w := started false None in
  let ds := [Finite 3000; Finite 1800; Finite 300; Finite 1800; Finite 3000] in
  Forall (fun f => fst f = Returns tt /\ callsTo TheStadium (snd f) = [])
    (frames ds w) /\
  stadiumOf (afterFrames ds w) = None.
Proof.
  intros w ds.
  exact (proj1 (ticks_without_stadium_never_throw w ds false eq_refl eq_refl)).
Defined.

(** *** The flags and the scale *)

Lemma tick_flags (d : number) (w : World) :
  flagsFollowScale (appStateOf w) ->
  flagsFollowScale (appStateOf (worldOf (tick d w))).
Proof.
  open_world w. unfold flagsFollowScale.
  cbn [currentZoomScale sphereVisible stadiumDetailVisible]. intros F.
  tick_branches d cam ctl st sp ls cur sv dv; try exact F.
  all: destruct (classify d), sv, dv; simpl in *; try discriminate;
       split; split; intros; congruence.
Qed.

Lemma afterFrames_flags (ds : list number) :
  forall w : World, flagsFollowScale (appStateOf w) ->
  flagsFollowScale (appStateOf (afterFrames ds w)).
Proof.
  induction ds as [|d r IH]; intros w F; [exact F|].
  unfold afterFrames. simpl. apply IH. apply tick_flags. exact F.
Qed.

(** C9. Starting from a state at the sphere scale with the sphere flagged
    visible and the detail flagged hidden, after any sequence of ticks the
    sphere flag is set exactly when the scale is sphere and the detail flag
    exactly when the scale is detail. *)
Theorem flags_follow_scale (w : World) (ds : list number)
  (Hscale : currentZoomScale (appStateOf w) = sphere)
  (Hsphere : sphereVisible (appStateOf w) = true)
  (Hdetail : stadiumDetailVisible (appStateOf w) = false) :
  flagsFollowScale (appStateOf (afterFrames ds w)).
Proof.
  apply afterFrames_flags. unfold flagsFollowScale.
  rewrite Hscale, Hsphere, Hdetail.
  split; split; intros; congruence.
Qed.

Lemma flags_follow_scale_witness :
  flagsFollowScale
    (appStateOf (afterFrames [Finite 1800; Finite 300; Finite 2600]
                   (started true (Some exampleStadium)))).
Proof.
  apply (flags_follow_scale (started true (Some exampleStadium))
           [Finite 1800; Finite 300; Finite 2600]); reflexivity.
Defined.

End Orchestrator.

(* ================================================================== *)
(** * Properties of the intro sequence *)

Section Intro.

(** C4, as stated, fails: nothing guards a second run.  Once the intro
    tween has ended and its callback has set the flag, a second call of
    [startIntroSequence] disables the input again and starts the camera
    animation again; a second call while the first tween is still in flight
    leaves two intro tweens in flight. *)
Lemma intro_runs_again_counterexample :
  let w := run [TweenComplete 0] (started true None) in
  let r := StadiumApp.startIntroSequence w in
  hasSeenIntroSequence (appStateOf w) = true /\
  controls (this w) = Some inputEnabled /\
  effectsOf r = [Animate StadiumApp.introTween] /\
  controls (this (worldOf r)) = Some inputDisabled /\
  worldOf r <> w /\
  timeline (worldOf (StadiumApp.startIntroSequence (started true None))) =
    [StadiumApp.introTween; StadiumApp.introTween].
Proof.
  vm_compute. repeat split. discriminate.
Qed.

(** C4, amended.  The completion callback sets [hasSeenIntroSequence] and
    enables rotate, zoom and pan; [startIntroSequence] does not look at the
    flag: with the engine loaded, each call, a second one included,
    disables the input and starts one camera animation. *)
Theorem intro_sets_flag_and_runs_on_every_call (w : World)
  (ctl0 : THREE.OrbitControls) (cam0 : THREE.Camera)
  (Hctl : controls (this w) = Some ctl0)
  (Hcam : camera (this w) = Some cam0)
  (Hg : gsapLoaded w = true) :
  (outcomeOf (StadiumApp.introOnComplete w) = Returns tt /\
   hasSeenIntroSequence (appStateOf (worldOf (StadiumApp.introOnComplete w))) = true /\
   controls (this (worldOf (StadiumApp.introOnComplete w))) = Some inputEnabled) /\
  (outcomeOf (StadiumApp.startIntroSequence w) = Returns tt /\
   effectsOf (StadiumApp.startIntroSequence w) = [Animate StadiumApp.introTween] /\
   timeline (worldOf (StadiumApp.startIntroSequence w)) =
     timeline w ++ [StadiumApp.introTween] /\
   controls (this (worldOf (StadiumApp.startIntroSequence w))) = Some inputDisabled).
Proof.
  open_world w. subst ctl cam g.
  split; repeat split.
Qed.

Lemma intro_sets_flag_and_runs_on_every_call_witness :
  let w := run [TweenComplete 0] (started true None) in
  hasSeenIntroSequence (appStateOf w) = true /\
  effectsOf (StadiumApp.startIntroSequence w) = [Animate StadiumApp.introTween].
Proof.
  intros w. split; [reflexivity|].
  exact (proj1 (proj2 (proj2
    (intro_sets_flag_and_runs_on_every_call w inputEnabled
       (THREE.mkCamera (gsapRoundXYZ CAMERA_POSITIONS.DETAIL_END))
       eq_refl eq_refl eq_refl)))).
Defined.

(** *** Without the animation engine *)

Lemma tick_frozen (d : number) (w : World) :
  gsapLoaded w = false -> timeline w = [] ->
  frozen w (worldOf (tick d w)) /\
  camera (this (worldOf (tick d w))) = camera (this w).
Proof.
  open_world w. intros G T. subst g tl. unfold frozen, camera, controls, appStateOf.
  tick_branches d cam ctl st sp ls cur sv dv.
  all: unfold worldOf; cbn [fst snd this timeline gsapLoaded];
       rewrite ?stadium_no_engine_no_tween; repeat split.
Qed.

Lemma onKeyDown_frozen (key : string) (w : World) :
  gsapLoaded w = false -> timeline w = [] ->
  frozen w (worldOf (StadiumApp.onKeyDown key w)) /\
  camera (this (worldOf (StadiumApp.onKeyDown key w))) = camera (this w).
Proof.
  open_world w. intros G T. subst g tl. unfold frozen, camera, controls, appStateOf.
  unfold StadiumApp.onKeyDown. destruct cam; repeat split.
Qed.

Lemma flickerFloodlights_frozen (f : nat -> Q -> Q) (w : World) :
  gsapLoaded w = false -> timeline w = [] ->
  frozen w (worldOf (flickerFloodlights f w)) /\
  camera (this (worldOf (flickerFloodlights f w))) = camera (this w).
Proof.
  open_world w. intros G T. subst g tl. unfold frozen, camera, controls, appStateOf.
  unfold flickerFloodlights.
  destruct playing, ls as [ls|], cur; repeat split.
Qed.

Lemma controlsUpdate_frozen (p : THREE.Vector3) (w : World) :
  gsapLoaded w = false -> timeline w = [] ->
  frozen w (worldOf (controlsUpdate p w)).
Proof.
  open_world w. intros G T. subst g tl. unfold frozen, camera, controls, appStateOf.
  unfold controlsUpdate.
  destruct ctl as [ctl|], cam as [cam|]; repeat split.
Qed.

(** With no tween in flight the engine has nothing to render or to end. *)
Lemma engine_idle (w : World) (n : nat) (v : GSAP.Goal) (shared : list (nat * nat)) :
  timeline w = [] ->
  worldOf (tweenComplete n w) = w /\
  worldOf (tweenCompleteShared n shared w) = w /\
  worldOf (tweenRender n v shared w) = w.
Proof.
  intros T. unfold tweenComplete, tweenCompleteShared, tweenRender. rewrite T.
  destruct n; repeat split.
Qed.

Lemma frozen_refl (w : World) :
  gsapLoaded w = false -> timeline w = [] -> frozen w w.
Proof. intros G T. repeat split; assumption. Qed.

Lemma handle_frozen (e : Event) (w : World) :
  gsapLoaded w = false -> timeline w = [] ->
  frozen w (worldOf (handle e w)) /\
  (if isControlsUpdate e then True
   else camera (this (worldOf (handle e w))) = camera (this w)).
Proof.
  intros G T.
  destruct e as [d|k|n|f|p|n v sh|n sh]; cbn [handle isControlsUpdate].
  - apply tick_frozen; assumption.
  - apply onKeyDown_frozen; assumption.
  - destruct (engine_idle w n (GSAP.ToOpacity 0) [] T) as [E _]. rewrite E.
    split; [apply frozen_refl; assumption|reflexivity].
  - apply flickerFloodlights_frozen; assumption.
  - split; [apply controlsUpdate_frozen; assumption|exact I].
  - destruct (engine_idle w n v sh T) as [_ [_ E]]. rewrite E.
    split; [apply frozen_refl; assumption|reflexivity].
  - destruct (engine_idle w n (GSAP.ToOpacity 0) sh T) as [_ [E _]]. rewrite E.
    split; [apply frozen_refl; assumption|reflexivity].
Qed.

Lemma run_frozen (es : list Event) :
  forall w : World, gsapLoaded w = false -> timeline w = [] ->
  frozen w (run es w) /\
  (if existsb isControlsUpdate es then True
   else camera (this (run es w)) = camera (this w)).
Proof.
  induction es as [|e r IH]; intros w G T.
  - split; [apply frozen_refl; assumption|reflexivity].
  - destruct (handle_frozen e w G T) as [[G1 [T1 [C1 S1]]] K1].
    destruct (IH _ G1 T1) as [[G2 [T2 [C2 S2]]] K2].
    cbn [run existsb]. split.
    + repeat split; congruence.
    + destruct (isControlsUpdate e); cbn [orb]; [exact I|].
      destruct (existsb isControlsUpdate r); [exact I|congruence].
Qed.

(** C8. Without the engine the intro still disables rotate, zoom and pan;
    it starts no camera animation and leaves the camera where it is.
    Whatever happens afterwards (scale updates, floodlight flicker, calls
    of [controls.update()], key presses, the engine rendering or ending
    tweens), no tween is ever in flight, so that no completion callback can
    run: the input stays disabled and the flag stays unset.  Nothing but
    [controls.update()] writes the position of the camera.  *)
Theorem intro_without_engine_leaves_input_disabled (w : World)
  (ctl0 : THREE.OrbitControls) (es : list Event)
  (Hctl : controls (this w) = Some ctl0)
  (Hg : gsapLoaded w = false)
  (Htl : timeline w = [])
  (Hseen : hasSeenIntroSequence (appStateOf w) = false) :
  (outcomeOf (StadiumApp.startIntroSequence w) = Returns tt /\
   effectsOf (StadiumApp.startIntroSequence w) = [] /\
   controls (this (worldOf (StadiumApp.startIntroSequence w))) = Some inputDisabled /\
   camera (this (worldOf (StadiumApp.startIntroSequence w))) = camera (this w) /\
   timeline (worldOf (StadiumApp.startIntroSequence w)) = []) /\
  (controls (this (run es (worldOf (StadiumApp.startIntroSequence w)))) = Some inputDisabled /\
   timeline (run es (worldOf (StadiumApp.startIntroSequence w))) = [] /\
   hasSeenIntroSequence
     (appStateOf (run es (worldOf (StadiumApp.startIntroSequence w)))) = false /\
   (if existsb isControlsUpdate es then True
    else camera (this (run es (worldOf (StadiumApp.startIntroSequence w)))) =
         camera (this w))).
Proof.
  assert (I0 : outcomeOf (StadiumApp.startIntroSequence w) = Returns tt /\
              effectsOf (StadiumApp.startIntroSequence w) = [] /\
              controls (this (worldOf (StadiumApp.startIntroSequence w))) = Some inputDisabled /\
              camera (this (worldOf (StadiumApp.startIntroSequence w))) = camera (this w) /\
              hasSeenIntroSequence (appStateOf (worldOf (StadiumApp.startIntroSequence w))) = false /\
              gsapLoaded (worldOf (StadiumApp.startIntroSequence w)) = false /\
              timeline (worldOf (StadiumApp.startIntroSequence w)) = []).
  { open_world w. subst ctl g tl seen. repeat split. }
  destruct I0 as [O [E [C [K [S [G T]]]]]].
  split; [repeat split; assumption|].
  destruct (run_frozen es _ G T) as [[_ [T' [C' S']]] K'].
  split; [congruence|]. split; [exact T'|]. split; [congruence|].
  destruct (existsb isControlsUpdate es); [exact I|congruence].
Qed.

Lemma intro_without_engine_leaves_input_disabled_witness :
  let w := worldOf (StadiumApp.startIntroSequence (loading false)) in
  let w' := run [Frame 1800; Flicker (fun _ base => base + 1);
                 ControlsUpdate (CAMERA_POSITIONS.mk_xyz 0 251 3992); KeyDown "d";
                 TweenComplete 0; Frame 300] w in
  controls (this (loading false)) = Some inputEnabled /\
  controls (this w) = Some inputDisabled /\
  controls (this w') = Some inputDisabled /\
  timeline w' = [] /\
  hasSeenIntroSequence (appStateOf w') = false.
Proof.
  intros w w'.
  pose proof (intro_without_engine_leaves_input_disabled (loading false)
                inputEnabled
                [Frame 1800; Flicker (fun _ base => base + 1);
                 ControlsUpdate (CAMERA_POSITIONS.mk_xyz 0 251 3992); KeyDown "d";
                 TweenComplete 0; Frame 300]
                eq_refl eq_refl eq_refl eq_refl) as [[_ [_ [A _]]] [B [C [D _]]]].
  split; [reflexivity|]. split; [exact A|]. split; [exact B|]. split; [exact C|exact D].
Defined.

End Intro.

(* ================================================================== *)
(** * Further properties: the classifier and the threshold table *)

Section ClassifierMore.

(** X1. The classifier is monotone: of two finite distances the larger one
    never gets the nearer scale. *)
Theorem classify_monotone (q1 q2 : Q) (H : q1 <= q2) :
  Nat.le (rank (classify q1)) (rank (classify q2)).
Proof.
  rewrite !classify_finite. unfold Nat.le.
  destruct (Qle_bool 2500 q1) eqn:A1; destruct (Qle_bool 500 q1) eqn:B1;
  destruct (Qle_bool 2500 q2) eqn:A2; destruct (Qle_bool 500 q2) eqn:B2;
    simpl; try lia;
    try apply Qle_bool_iff in A1; try apply Qle_bool_iff in B1;
    try apply Qle_bool_false in A2; try apply Qle_bool_false in B2; lra.
Qed.

Lemma classify_monotone_witness :
  Nat.le (rank (classify 300)) (rank (classify 1800)).
Proof. apply (classify_monotone 300 1800). unfold Qle; simpl; lia. Defined.

(** X2. The bands of the table are disjoint and cover the distances from 1
    on: a finite distance of at least 1 lies in the interval [min, max) of
    exactly one band, the band the chain of comparisons returns, although
    the chain reads no [max]. *)
Theorem bands_partition (q : Q) (H : 1 <= q) :
  inBand q (classify q) = true /\
  forall s : ZoomScale, inBand q s = true -> s = classify q.
Proof.
  assert (C : Qle_bool 1 q = true) by (apply Qle_bool_iff; exact H).
  rewrite classify_finite.
  destruct (Qle_bool 2500 q) eqn:A; destruct (Qle_bool 500 q) eqn:B.
  all: try (apply Qle_bool_iff in A; apply Qle_bool_false in B; lra).
  all: split;
    [ unfold inBand; simpl; rewrite ?A, ?B, ?C; reflexivity
    | intros s; destruct s; unfold inBand; simpl; rewrite ?A, ?B, ?C; simpl;
      intros E; try reflexivity; discriminate E ].
Qed.

Lemma bands_partition_witness :
  inBand 2500 (classify 2500) = true /\
  forall s : ZoomScale, inBand 2500 s = true -> s = classify 2500.
Proof. apply (bands_partition 2500). unfold Qle; simpl; lia. Defined.

End ClassifierMore.

(* ================================================================== *)
(** * Further properties: the stadium model and the floodlights *)

Section SceneObjects.

Import THREE.

Lemma mapSlot_mapSlot (f h : Material -> Material) (slot : MaterialSlot) :
  StadiumLoader.mapSlot f (StadiumLoader.mapSlot h slot) =
  StadiumLoader.mapSlot (fun m => f (h m)) slot.
Proof.
  destruct slot as [|m|ms]; simpl; try reflexivity.
  rewrite map_map. reflexivity.
Qed.

Lemma mapSlot_ext (f h : Material -> Material) (slot : MaterialSlot) :
  (forall m, f m = h m) ->
  StadiumLoader.mapSlot f slot = StadiumLoader.mapSlot h slot.
Proof.
  intros E. destruct slot as [|m|ms]; simpl; try reflexivity.
  - rewrite E. reflexivity.
  - f_equal. apply map_ext. exact E.
Qed.

Lemma materialsOf_mapSlot (f : Material -> Material) (slot : MaterialSlot) :
  StadiumLoader.materialsOf (StadiumLoader.mapSlot f slot) =
  map f (StadiumLoader.materialsOf slot).
Proof. destruct slot; reflexivity. Qed.

Lemma assignOpacity_absorbs (g1 g2 v1 v2 : bool) (m : Material) :
  v2 && g2 = false ->
  StadiumLoader.assignOpacity g2 v2 (StadiumLoader.assignOpacity g1 v1 m) =
  StadiumLoader.assignOpacity g2 v2 m.
Proof.
  destruct g1, g2, v1, v2; simpl; intros E; try discriminate E; reflexivity.
Qed.

Lemma visitNode_absorbs (g1 g2 v1 v2 : bool) (n : Node) :
  v2 && g2 = false ->
  StadiumLoader.visitNode g2 v2 (StadiumLoader.visitNode g1 v1 n) =
  StadiumLoader.visitNode g2 v2 n.
Proof.
  intros E. unfold StadiumLoader.visitNode.
  destruct (isMesh n) eqn:M; cbn [isMesh material]; rewrite ?M; [|reflexivity].
  rewrite mapSlot_mapSlot. f_equal.
  apply mapSlot_ext. intros m. apply assignOpacity_absorbs. exact E.
Qed.

(** X3. Hiding the stadium, or showing it while the engine is missing,
    leaves the model in a state that depends on this call alone and not on
    the calls made before: hiding twice is hiding once, and a hide undoes
    whatever a show did to the model. *)
Theorem stadium_last_call_wins (g1 g2 v1 v2 : bool) (s : Object3D)
  (d1 d2 : option Q) (H : v2 && g2 = false) :
  fst (StadiumLoader.updateStadiumVisibility g2
         (fst (StadiumLoader.updateStadiumVisibility g1 s v1 d1)) v2 d2) =
  fst (StadiumLoader.updateStadiumVisibility g2 s v2 d2).
Proof.
  unfold StadiumLoader.updateStadiumVisibility.
  cbn [fst self descendants isMesh material visible].
  f_equal.
  - unfold StadiumLoader.visitNode. cbn [isMesh material].
    destruct (isMesh (self s)) eqn:M; cbn [isMesh material]; [|reflexivity].
    rewrite mapSlot_mapSlot. f_equal.
    apply mapSlot_ext. intros m. apply assignOpacity_absorbs. exact H.
  - rewrite map_map. apply map_ext. intros n.
    apply visitNode_absorbs. exact H.
Qed.

Lemma stadium_last_call_wins_witness :
  fst (StadiumLoader.updateStadiumVisibility true
         (fst (StadiumLoader.updateStadiumVisibility true exampleStadium true None))
         false None) =
  fst (StadiumLoader.updateStadiumVisibility true exampleStadium false None).
Proof.
  apply (stadium_last_call_wins true true true false exampleStadium None None).
  reflexivity.
Defined.

Lemma visitNode_prepareNode (g : bool) (n : Node) :
  StadiumLoader.visitNode g false (StadiumLoader.prepareNode n) =
  StadiumLoader.prepareNode n.
Proof.
  unfold StadiumLoader.visitNode, StadiumLoader.prepareNode.
  destruct (isMesh n) eqn:M; cbn [isMesh material]; rewrite ?M; [|reflexivity].
  rewrite mapSlot_mapSlot. reflexivity.
Qed.

Lemma prepareNode_hidden (n : Node) :
  isMesh (StadiumLoader.prepareNode n) = false \/
  (visible (StadiumLoader.prepareNode n) = false /\
   Forall (fun m => transparent m = true /\ opacity m = 0.0)
     (StadiumLoader.materialsOf (material (StadiumLoader.prepareNode n)))).
Proof.
  unfold StadiumLoader.prepareNode.
  destruct (isMesh n) eqn:M; [right|left; exact M].
  cbn [visible material]. split; [reflexivity|].
  rewrite materialsOf_mapSlot.
  induction (StadiumLoader.materialsOf (material n)) as [|m r IH]; simpl;
    constructor; auto.
Qed.

(** X4. A freshly prepared model is in the hidden state: it is invisible,
    each of its meshes is invisible with all materials transparent at
    opacity 0, and hiding it changes nothing.  The model and the flags of
    the application thus start in agreement. *)
Theorem prepared_stadium_is_hidden (g : bool) (s : Object3D) (d : option Q) :
  fst (StadiumLoader.updateStadiumVisibility g
         (StadiumLoader.prepareStadiumMaterials s) false d) =
  StadiumLoader.prepareStadiumMaterials s /\
  visible (self (StadiumLoader.prepareStadiumMaterials s)) = false /\
  Forall (fun n => isMesh n = false \/
                   (visible n = false /\
                    Forall (fun m => transparent m = true /\ opacity m = 0.0)
                      (StadiumLoader.materialsOf (material n))))
    (traverse (StadiumLoader.prepareStadiumMaterials s)).
Proof.
  split; [|split].
  - unfold StadiumLoader.updateStadiumVisibility, StadiumLoader.prepareStadiumMaterials.
    cbn [fst self descendants].
    f_equal.
    + unfold StadiumLoader.visitNode, StadiumLoader.prepareNode.
      cbn [isMesh material visible].
      destruct (isMesh (self s)) eqn:M; cbn [isMesh material visible];
        rewrite ?M; [|reflexivity].
      rewrite mapSlot_mapSlot. reflexivity.
    + rewrite map_map. apply map_ext. intros n. apply visitNode_prepareNode.
  - unfold StadiumLoader.prepareStadiumMaterials, StadiumLoader.prepareNode.
    cbn [self isMesh]. destruct (isMesh (self s)); reflexivity.
  - unfold StadiumLoader.prepareStadiumMaterials, traverse. cbn [self descendants].
    constructor.
    + apply prepareNode_hidden.
    + induction (descendants s) as [|n r IH]; simpl; constructor; auto.
      apply prepareNode_hidden.
Qed.

Lemma visitNode_isMesh (g v : bool) (n : Node) :
  isMesh (StadiumLoader.visitNode g v n) = isMesh n.
Proof.
  unfold StadiumLoader.visitNode. destruct (isMesh n) eqn:M; [reflexivity|exact M].
Qed.

Lemma assignOpacity_transparent (g v : bool) (m : Material) :
  transparent (StadiumLoader.assignOpacity g v m) = transparent m.
Proof. destruct g, v; reflexivity. Qed.

Lemma visitNode_transparent (g v : bool) (n : Node) :
  map transparent (StadiumLoader.materialsOf (material (StadiumLoader.visitNode g v n))) =
  map transparent (StadiumLoader.materialsOf (material n)).
Proof.
  unfold StadiumLoader.visitNode. destruct (isMesh n); [|reflexivity].
  cbn [material]. rewrite materialsOf_mapSlot, map_map.
  apply map_ext. intros m. apply assignOpacity_transparent.
Qed.

Lemma visitNode_visible (g v : bool) (n : Node) :
  isMesh (StadiumLoader.visitNode g v n) = false \/
  visible (StadiumLoader.visitNode g v n) = v.
Proof.
  unfold StadiumLoader.visitNode. destruct (isMesh n) eqn:M; [right|left]; auto.
Qed.

Lemma nonMeshes_visitNode (g v : bool) (l : list Node) :
  nonMeshes (map (StadiumLoader.visitNode g v) l) = nonMeshes l.
Proof.
  unfold nonMeshes. induction l as [|n r IH]; [reflexivity|].
  simpl. rewrite visitNode_isMesh, IH.
  unfold StadiumLoader.visitNode. destruct (isMesh n); reflexivity.
Qed.

(** X5. Whatever the direction and with or without the engine,
    [updateStadiumVisibility] keeps the model's structure: the same objects
    in the same order, the same meshes, the same number of materials with
    the same transparency flags.  It sets the visibility of the model itself
    and of every mesh, and returns the objects below the root that are not
    meshes exactly as they were. *)
Theorem stadium_update_keeps_shape (g v : bool) (s : Object3D) (d : option Q) :
  shape (fst (StadiumLoader.updateStadiumVisibility g s v d)) = shape s /\
  nonMeshes (descendants (fst (StadiumLoader.updateStadiumVisibility g s v d))) =
    nonMeshes (descendants s) /\
  visible (self (fst (StadiumLoader.updateStadiumVisibility g s v d))) = v /\
  Forall (fun n => isMesh n = false \/ visible n = v)
    (traverse (fst (StadiumLoader.updateStadiumVisibility g s v d))).
Proof.
  unfold StadiumLoader.updateStadiumVisibility. cbn [fst self descendants].
  split; [|split; [|split]].
  - unfold shape, traverse. cbn [self descendants map]. f_equal.
    + rewrite visitNode_isMesh, visitNode_transparent. reflexivity.
    + rewrite map_map. apply map_ext. intros n.
      rewrite visitNode_isMesh, visitNode_transparent. reflexivity.
  - apply nonMeshes_visitNode.
  - unfold StadiumLoader.visitNode. cbn [isMesh].
    destruct (isMesh (self s)); reflexivity.
  - unfold traverse. cbn [self descendants]. constructor.
    + apply visitNode_visible.
    + induction (descendants s) as [|n r IH]; simpl; constructor; auto.
      apply visitNode_visible.
Qed.

Lemma visitNode_show_opacity (n : Node) :
  map opacity (StadiumLoader.materialsOf (material (StadiumLoader.visitNode true true n))) =
  map opacity (StadiumLoader.materialsOf (material n)).
Proof.
  unfold StadiumLoader.visitNode. destruct (isMesh n); [|reflexivity].
  cbn [material]. rewrite materialsOf_mapSlot, map_map. reflexivity.
Qed.

Lemma visitTweens_show_length (q : Q) (i : nat) (n : Node) :
  List.length (StadiumLoader.visitTweens true true q i n) =
  if isMesh n then List.length (StadiumLoader.materialsOf (material n)) else O.
Proof.
  unfold StadiumLoader.visitTweens, StadiumLoader.materialTweens.
  destruct (isMesh n); [|reflexivity]. apply imapFrom_length.
Qed.

Lemma show_tweens_length (q : Q) (l : list Node) :
  forall i : nat,
  List.length (iflatMapFrom (StadiumLoader.visitTweens true true q) i l) =
  list_sum (map (fun n => if isMesh n
                          then List.length (StadiumLoader.materialsOf (material n))
                          else O) l).
Proof.
  induction l as [|n r IH]; intros i; simpl; [reflexivity|].
  rewrite length_app, visitTweens_show_length, IH. reflexivity.
Qed.

Lemma visitTweens_show_goal (q : Q) (i : nat) (n : Node) :
  Forall (fun tw => GSAP.goal tw = GSAP.ToOpacity 1.0 /\ GSAP.onComplete tw = None)
    (StadiumLoader.visitTweens true true q i n).
Proof.
  unfold StadiumLoader.visitTweens, StadiumLoader.materialTweens.
  destruct (isMesh n); [|constructor].
  apply imapFrom_Forall. intros j a. split; reflexivity.
Qed.

Lemma visitNode_show_no_engine (n : Node) :
  isMesh (StadiumLoader.visitNode false true n) = false \/
  Forall (fun m => opacity m = 1.0)
    (StadiumLoader.materialsOf (material (StadiumLoader.visitNode false true n))).
Proof.
  unfold StadiumLoader.visitNode.
  destruct (isMesh n) eqn:E; [right|left; exact E].
  cbn [material]. rewrite materialsOf_mapSlot.
  induction (StadiumLoader.materialsOf (material n)) as [|m r IH]; simpl;
    constructor; auto.
Qed.

(** X6. Showing the stadium.  With the engine loaded the call changes no
    opacity itself: it starts one tween per material of each mesh, each to
    opacity 1 and without completion callback, so the model stays as
    transparent as it was until the engine acts.  Without the engine it
    starts no tween and every mesh material is at opacity 1 on return. *)
Theorem stadium_show (s : Object3D) (d : option Q) :
  (opacitiesOf (fst (StadiumLoader.updateStadiumVisibility true s true d)) =
     opacitiesOf s /\
   List.length (snd (StadiumLoader.updateStadiumVisibility true s true d)) =
     meshMaterialCount s /\
   Forall (fun tw => GSAP.goal tw = GSAP.ToOpacity 1.0 /\ GSAP.onComplete tw = None)
     (snd (StadiumLoader.updateStadiumVisibility true s true d))) /\
  (snd (StadiumLoader.updateStadiumVisibility false s true d) = [] /\
   meshOpacityIs 1.0 (fst (StadiumLoader.updateStadiumVisibility false s true d))).
Proof.
  unfold StadiumLoader.updateStadiumVisibility. cbn [fst snd self descendants].
  split; [split; [|split]|split].
  - unfold opacitiesOf, traverse. cbn [self descendants map]. f_equal.
    + rewrite visitNode_show_opacity. reflexivity.
    + rewrite map_map. apply map_ext. intros n. apply visitNode_show_opacity.
  - rewrite show_tweens_length. reflexivity.
  - apply iflatMapFrom_Forall. intros i n. apply visitTweens_show_goal.
  - apply iflatMapFrom_nil. intros i n. apply visitTweens_no_engine.
  - unfold meshOpacityIs, traverse. cbn [self descendants]. constructor.
    + apply visitNode_show_no_engine.
    + induction (descendants s) as [|n r IH]; simpl; constructor; auto.
      apply visitNode_show_no_engine.
Qed.

Lemma imapFrom_targets (level q : Q) (l : list Q) :
  forall i : nat,
  map GSAP.target
    (imapFrom (fun j _ => GSAP.mkTween (GSAP.Floodlight j) (GSAP.ToIntensity level)
                            q "power2.inOut" None) i l) =
  map GSAP.Floodlight (seq i (List.length l)).
Proof.
  induction l as [|a r IH]; intros i; simpl; [reflexivity|].
  rewrite IH. reflexivity.
Qed.

(** X7. [updateFloodlightIntensity] never adds or removes a light.  Without
    the engine every light is at the level of the mode on return (8 in
    detail mode, 2 otherwise) and a second call with the same mode changes
    nothing.  With the engine the intensities are left as they are and one
    tween per light is started, the i-th on light i, to that level. *)
Theorem floodlight_update (ls : LightingSystem.t) (isDetailMode : bool)
  (d : option Q) (g : bool) :
  List.length (LightingSystem.floodlights
            (fst (LightingSystem.updateFloodlightIntensity g ls isDetailMode d))) =
    List.length (LightingSystem.floodlights ls) /\
  (Forall (fun i => i = intensityFor isDetailMode)
     (LightingSystem.floodlights
        (fst (LightingSystem.updateFloodlightIntensity false ls isDetailMode d))) /\
   snd (LightingSystem.updateFloodlightIntensity false ls isDetailMode d) = [] /\
   fst (LightingSystem.updateFloodlightIntensity false
          (fst (LightingSystem.updateFloodlightIntensity false ls isDetailMode d))
          isDetailMode d) =
     fst (LightingSystem.updateFloodlightIntensity false ls isDetailMode d)) /\
  (fst (LightingSystem.updateFloodlightIntensity true ls isDetailMode d) = ls /\
   map GSAP.target (snd (LightingSystem.updateFloodlightIntensity true ls isDetailMode d)) =
     map GSAP.Floodlight (seq 0 (List.length (LightingSystem.floodlights ls))) /\
   Forall (fun tw => GSAP.goal tw = GSAP.ToIntensity (intensityFor isDetailMode))
     (snd (LightingSystem.updateFloodlightIntensity true ls isDetailMode d))).
Proof.
  unfold LightingSystem.updateFloodlightIntensity, intensityFor.
  split; [|split; [split; [|split]|split; [|split]]].
  - destruct g; cbn [fst LightingSystem.floodlights]; [reflexivity|].
    apply length_map.
  - cbn [fst LightingSystem.floodlights].
    induction (LightingSystem.floodlights ls) as [|a r IH]; simpl; constructor; auto.
  - reflexivity.
  - cbn [fst LightingSystem.floodlights]. rewrite map_map. reflexivity.
  - reflexivity.
  - cbn [snd]. apply imapFrom_targets.
  - cbn [snd]. apply imapFrom_Forall. intros i a. reflexivity.
Qed.

End SceneObjects.

(* ================================================================== *)
(** * Further properties: events on a running page *)

Section Events.

Lemma onKeyDown_quiet (key : string) (w : World) :
  outcomeOf (StadiumApp.onKeyDown key w) = Returns tt /\
  this (worldOf (StadiumApp.onKeyDown key w)) = this w /\
  gsapLoaded (worldOf (StadiumApp.onKeyDown key w)) = gsapLoaded w /\
  ((effectsOf (StadiumApp.onKeyDown key w) = [] /\
    timeline (worldOf (StadiumApp.onKeyDown key w)) = timeline w) \/
   exists p, (p = CAMERA_POSITIONS.SPHERE_START \/ p = CAMERA_POSITIONS.DETAIL_END) /\
     effectsOf (StadiumApp.onKeyDown key w) = [Animate (StadiumApp.jumpTween p)] /\
     timeline (worldOf (StadiumApp.onKeyDown key w)) =
       timeline w ++ [StadiumApp.jumpTween p]).
Proof.
  open_world w. unfold StadiumApp.onKeyDown.
  destruct cam as [cam|], g; cbn.
  2-4: repeat split; left; split; try reflexivity.
  destruct (String.eqb (toLowerCase key) "g"); cbn.
  - repeat split. right. exists CAMERA_POSITIONS.SPHERE_START.
    repeat split. left. reflexivity.
  - destruct (String.eqb (toLowerCase key) "d"); cbn.
    + repeat split. right. exists CAMERA_POSITIONS.DETAIL_END.
      repeat split. right. reflexivity.
    + repeat split. left. split; reflexivity.
Qed.

Lemma lowerAscii_idempotent (c : ascii) : lowerAscii (lowerAscii c) = lowerAscii c.
Proof.
  destruct c as [[] [] [] [] [] [] [] []]; reflexivity.
Qed.

Lemma toLowerCase_idempotent (s : string) : toLowerCase (toLowerCase s) = toLowerCase s.
Proof.
  induction s as [|c r IH]; simpl; [reflexivity|].
  rewrite lowerAscii_idempotent, IH. reflexivity.
Qed.

(** X8. A key press never throws and never changes the application object:
    at most it hands one tween to the engine, a camera move of 1.5 seconds
    to the start or to the end position without completion callback.
    Without the engine or before the camera exists it does nothing.  The
    key is read without regard to case. *)
Theorem key_press_only_moves_camera (key : string) (w : World) :
  (outcomeOf (StadiumApp.onKeyDown key w) = Returns tt /\
   this (worldOf (StadiumApp.onKeyDown key w)) = this w /\
   gsapLoaded (worldOf (StadiumApp.onKeyDown key w)) = gsapLoaded w /\
   ((effectsOf (StadiumApp.onKeyDown key w) = [] /\
     timeline (worldOf (StadiumApp.onKeyDown key w)) = timeline w) \/
    exists p, (p = CAMERA_POSITIONS.SPHERE_START \/ p = CAMERA_POSITIONS.DETAIL_END) /\
      effectsOf (StadiumApp.onKeyDown key w) = [Animate (StadiumApp.jumpTween p)] /\
      timeline (worldOf (StadiumApp.onKeyDown key w)) =
        timeline w ++ [StadiumApp.jumpTween p])) /\
  (if gsapLoaded w && match camera (this w) with Some _ => true | None => false end
   then True
   else StadiumApp.onKeyDown key w = (Returns tt, w, [])) /\
  StadiumApp.onKeyDown (toLowerCase key) w = StadiumApp.onKeyDown key w.
Proof.
  split; [apply onKeyDown_quiet|]. split.
  - open_world w. unfold StadiumApp.onKeyDown.
    destruct cam as [cam|], g; cbn; try reflexivity; exact I.
  - unfold StadiumApp.onKeyDown. rewrite toLowerCase_idempotent. reflexivity.
Qed.

Lemma tick_quiet (d : number) (w : World) :
  camera (this (worldOf (tick d w))) = camera (this w) /\
  controls (this (worldOf (tick d w))) = controls (this w) /\
  hasSeenIntroSequence (appStateOf (worldOf (tick d w))) =
    hasSeenIntroSequence (appStateOf w) /\
  This.sphere (this (worldOf (tick d w))) = This.sphere (this w) /\
  gsapLoaded (worldOf (tick d w)) = gsapLoaded w /\
  exists tws, timeline (worldOf (tick d w)) = timeline w ++ tws.
Proof.
  open_world w.
  tick_branches d cam ctl st sp ls cur sv dv.
  all: unfold worldOf; cbn [fst snd this timeline gsapLoaded]; repeat split.
  all: try (exists []; rewrite app_nil_r; reflexivity).
  all: rewrite <- ?app_assoc; eexists; reflexivity.
Qed.

(** The floodlight block touches the lighting only. *)
Lemma flickerFloodlights_quiet (f : nat -> Q -> Q) (w : World) :
  outcomeOf (flickerFloodlights f w) = Returns tt /\
  effectsOf (flickerFloodlights f w) = [] /\
  setLightingSystem (This.lightingSystem (this w))
    (this (worldOf (flickerFloodlights f w))) = this w /\
  gsapLoaded (worldOf (flickerFloodlights f w)) = gsapLoaded w /\
  timeline (worldOf (flickerFloodlights f w)) = timeline w.
Proof.
  open_world w. unfold flickerFloodlights.
  destruct playing, ls as [ls|], cur; repeat split.
Qed.

Lemma flickerFloodlights_fields (f : nat -> Q -> Q) (w : World) :
  camera (this (worldOf (flickerFloodlights f w))) = camera (this w) /\
  controls (this (worldOf (flickerFloodlights f w))) = controls (this w) /\
  This.appState (this (worldOf (flickerFloodlights f w))) = This.appState (this w) /\
  stadiumOf (worldOf (flickerFloodlights f w)) = stadiumOf w.
Proof.
  open_world w. unfold flickerFloodlights.
  destruct playing, ls as [ls|], cur; repeat split.
Qed.

(** [controls.update()] touches the position of the camera only. *)
Lemma controlsUpdate_quiet (p : THREE.Vector3) (w : World) :
  ready w = true ->
  outcomeOf (controlsUpdate p w) = Returns tt /\
  effectsOf (controlsUpdate p w) = [] /\
  camera (this (worldOf (controlsUpdate p w))) = Some (THREE.mkCamera p) /\
  setCamera (camera (this w)) (this (worldOf (controlsUpdate p w))) = this w /\
  gsapLoaded (worldOf (controlsUpdate p w)) = gsapLoaded w /\
  timeline (worldOf (controlsUpdate p w)) = timeline w.
Proof.
  open_world w. intros R. unfold controlsUpdate.
  destruct cam as [cam|]; [|discriminate R].
  destruct ctl as [ctl|]; [|discriminate R].
  repeat split.
Qed.

Lemma controlsUpdate_fields (p : THREE.Vector3) (w : World) :
  controls (this (worldOf (controlsUpdate p w))) = controls (this w) /\
  This.appState (this (worldOf (controlsUpdate p w))) = This.appState (this w) /\
  stadiumOf (worldOf (controlsUpdate p w)) = stadiumOf w /\
  ready (worldOf (controlsUpdate p w)) = ready w /\
  gsapLoaded (worldOf (controlsUpdate p w)) = gsapLoaded w /\
  timeline (worldOf (controlsUpdate p w)) = timeline w.
Proof.
  open_world w. unfold controlsUpdate.
  destruct cam as [cam|], ctl as [ctl|]; repeat split.
Qed.

(** What a write of the engine leaves alone: the controls, the application
    state, and whether there is a camera. *)
Lemma engineWrite_fields (tg : GSAP.Target) (v : GSAP.Goal)
  (shared : list (nat * nat)) (t : This.t) :
  controls (engineWrite tg v shared t) = controls t /\
  This.appState (engineWrite tg v shared t) = This.appState t /\
  (match camera (engineWrite tg v shared t) with Some _ => true | None => false end) =
  (match camera t with Some _ => true | None => false end).
Proof.
  destruct t as [a [cam ctl st] sp ls].
  unfold engineWrite, camera, controls.
  destruct tg, v; cbn; try (repeat split; fail).
  destruct cam; repeat split.
Qed.

Lemma ready_fields (w w' : World) :
  controls (this w') = controls (this w) ->
  (match camera (this w') with Some _ => true | None => false end) =
  (match camera (this w) with Some _ => true | None => false end) ->
  ready w' = ready w.
Proof.
  unfold ready. intros C K. rewrite C.
  destruct (camera (this w')), (camera (this w)), (controls (this w));
    try reflexivity; discriminate K.
Qed.

Lemma tweenRender_fields (n : nat) (v : GSAP.Goal) (shared : list (nat * nat))
  (w : World) :
  outcomeOf (tweenRender n v shared w) = Returns tt /\
  controls (this (worldOf (tweenRender n v shared w))) = controls (this w) /\
  This.appState (this (worldOf (tweenRender n v shared w))) = This.appState (this w) /\
  ready (worldOf (tweenRender n v shared w)) = ready w /\
  gsapLoaded (worldOf (tweenRender n v shared w)) = gsapLoaded w /\
  timeline (worldOf (tweenRender n v shared w)) = timeline w.
Proof.
  unfold tweenRender.
  destruct (nth_error (timeline w) n) as [tw|]; [|repeat split].
  destruct (engineWrite_fields (GSAP.target tw) v shared (this w)) as [C [A K]].
  unfold outcomeOf, worldOf. cbn [fst snd this gsapLoaded timeline].
  repeat split; try assumption.
  apply ready_fields; assumption.
Qed.

Lemma handle_quiet (e : Event) (w : World) :
  isCompletion e = false ->
  quiet w (worldOf (handle e w)) /\
  (if writesCamera e then True
   else camera (this (worldOf (handle e w))) = camera (this w)).
Proof.
  intros He.
  destruct e as [d|k|n|f|p|n v sh|n sh]; try discriminate He;
    cbn [handle writesCamera].
  - destruct (tick_quiet d w) as [A [B [C [_ [G T]]]]]. repeat split; assumption.
  - destruct (onKeyDown_quiet k w) as [_ [T [G E]]].
    unfold quiet, appStateOf. rewrite T. split; [|reflexivity].
    repeat split; [exact G|].
    destruct E as [[_ E]|[p [_ [_ E]]]]; rewrite E.
    + exists []. rewrite app_nil_r. reflexivity.
    + eexists. reflexivity.
  - destruct (flickerFloodlights_quiet f w) as [_ [_ [_ [G L]]]].
    destruct (flickerFloodlights_fields f w) as [K [C [A _]]].
    unfold quiet, appStateOf. rewrite C, A. split; [|exact K].
    repeat split; [exact G|]. exists []. rewrite app_nil_r. exact L.
  - destruct (controlsUpdate_fields p w) as [C [A [_ [_ [G T]]]]].
    unfold quiet, appStateOf. rewrite C, A. split; [|exact I].
    repeat split; [exact G|]. exists []. rewrite app_nil_r. exact T.
  - destruct (tweenRender_fields n v sh w) as [_ [C [A [_ [G T]]]]].
    unfold quiet, appStateOf. rewrite C, A. split; [|exact I].
    repeat split; [exact G|]. exists []. rewrite app_nil_r. exact T.
Qed.

Lemma run_quiet (es : list Event) :
  forall w : World,
  forallb (fun e => negb (isCompletion e)) es = true ->
  quiet w (run es w) /\
  (if existsb writesCamera es then True
   else camera (this (run es w)) = camera (this w)).
Proof.
  induction es as [|e r IH]; intros w H.
  - split; [|reflexivity]. repeat split. exists []. rewrite app_nil_r. reflexivity.
  - cbn [forallb] in H. apply andb_true_iff in H. destruct H as [He Hr].
    apply negb_true_iff in He.
    destruct (handle_quiet e w He) as [[B1 [C1 [G1 [t1 T1]]]] K1].
    destruct (IH (worldOf (handle e w)) Hr) as [[B2 [C2 [G2 [t2 T2]]]] K2].
    cbn [run existsb]. split.
    + repeat split; try congruence.
      exists (t1 ++ t2). rewrite T2, T1, app_assoc. reflexivity.
    + destruct (writesCamera e); cbn [orb]; [exact I|].
      destruct (existsb writesCamera r); [exact I|congruence].
Qed.

(** X9. Scale updates, the floodlight flicker, calls of
    [controls.update()], key presses and the renders of the engine, in any
    number and order, never touch the three input switches or the intro
    flag, and never take a tween away from the engine: what the intro
    disabled stays disabled until a tween ends and its callback runs.  The
    position of the camera is written by [controls.update()] and by the
    engine only: scale updates, flicker and key presses leave it as it
    is. *)
Theorem frames_and_keys_leave_input (w : World) (es : list Event)
  (H : forallb (fun e => negb (isCompletion e)) es = true) :
  quiet w (run es w) /\
  (if existsb writesCamera es then True
   else camera (this (run es w)) = camera (this w)).
Proof. apply run_quiet. exact H. Qed.

Lemma frames_and_keys_leave_input_witness :
  quiet (started true (Some exampleStadium))
    (run [Frame 1800; Flicker (fun _ base => base + 1);
          ControlsUpdate (CAMERA_POSITIONS.mk_xyz 0 251 3992); KeyDown "G";
          TweenRender 0 (GSAP.ToXYZ (CAMERA_POSITIONS.mk_xyz 1 2 3000)) [];
          Frame 300; KeyDown "x"]
       (started true (Some exampleStadium))) /\
  camera (this (run [Frame 1800; Flicker (fun _ base => base + 1); KeyDown "G"; Frame 300]
                  (started true (Some exampleStadium)))) =
  camera (this (started true (Some exampleStadium))).
Proof.
  split.
  - apply (frames_and_keys_leave_input (started true (Some exampleStadium))
             [Frame 1800; Flicker (fun _ base => base + 1);
              ControlsUpdate (CAMERA_POSITIONS.mk_xyz 0 251 3992); KeyDown "G";
              TweenRender 0 (GSAP.ToXYZ (CAMERA_POSITIONS.mk_xyz 1 2 3000)) [];
              Frame 300; KeyDown "x"]).
    reflexivity.
  - apply (frames_and_keys_leave_input (started true (Some exampleStadium))
             [Frame 1800; Flicker (fun _ base => base + 1); KeyDown "G"; Frame 300]).
    reflexivity.
Defined.

Lemma introOnComplete_ready (w : World) :
  ready w = true ->
  outcomeOf (StadiumApp.introOnComplete w) = Returns tt /\
  ready (worldOf (StadiumApp.introOnComplete w)) = true.
Proof.
  open_world w. intros R.
  destruct cam as [cam|]; [|discriminate R].
  destruct ctl as [ctl|]; [|discriminate R].
  split; reflexivity.
Qed.

Lemma tweenCompleteShared_ready (n : nat) (shared : list (nat * nat)) (w : World) :
  ready w = true ->
  outcomeOf (tweenCompleteShared n shared w) = Returns tt /\
  ready (worldOf (tweenCompleteShared n shared w)) = true.
Proof.
  intros R. unfold tweenCompleteShared.
  destruct (nth_error (timeline w) n) as [tw|]; [|split; [reflexivity|exact R]].
  destruct (engineWrite_fields (GSAP.target tw) (GSAP.goal tw) shared (this w))
    as [C [_ K]].
  set (w1 := mkWorld _ _ _).
  assert (R1 : ready w1 = true).
  { rewrite <- R. apply ready_fields; assumption. }
  clearbody w1.
  destruct (GSAP.onComplete tw) as [[]|]; cbn [runCallback].
  - apply introOnComplete_ready. exact R1.
  - split; [reflexivity|exact R1].
Qed.

Lemma tweenComplete_ready (n : nat) (w : World) :
  ready w = true ->
  outcomeOf (tweenComplete n w) = Returns tt /\
  ready (worldOf (tweenComplete n w)) = true.
Proof. apply (tweenCompleteShared_ready n []). Qed.

Lemma startIntroSequence_ready (w : World) :
  ready w = true ->
  outcomeOf (StadiumApp.startIntroSequence w) = Returns tt /\
  ready (worldOf (StadiumApp.startIntroSequence w)) = true.
Proof.
  open_world w. intros R.
  destruct cam as [cam|]; [|discriminate R].
  destruct ctl as [ctl|]; [|discriminate R].
  destruct g; split; reflexivity.
Qed.

Lemma initAfterLoad_ready (loaded : option THREE.Object3D) (w : World) :
  ready w = true ->
  outcomeOf (StadiumApp.initAfterLoad loaded w) = Returns tt /\
  ready (worldOf (StadiumApp.initAfterLoad loaded w)) = true.
Proof.
  open_world w. intros R.
  destruct cam as [cam|]; [|discriminate R].
  destruct ctl as [ctl|]; [|discriminate R].
  destruct g, loaded; split; reflexivity.
Qed.

Lemma handle_ready (e : Event) (w : World) :
  ready w = true ->
  outcomeOf (handle e w) = Returns tt /\ ready (worldOf (handle e w)) = true.
Proof.
  intros R. destruct e as [d|k|n|f|p|n v sh|n sh]; cbn [handle].
  - split; [apply tick_returns; exact R|rewrite tick_ready; exact R].
  - destruct (onKeyDown_quiet k w) as [O [T _]]. split; [exact O|].
    unfold ready in *. rewrite T. exact R.
  - apply tweenComplete_ready. exact R.
  - destruct (flickerFloodlights_quiet f w) as [O _]. split; [exact O|].
    destruct (flickerFloodlights_fields f w) as [K [C _]].
    unfold ready in *. rewrite K, C. exact R.
  - destruct (controlsUpdate_quiet p w R) as [O _].
    destruct (controlsUpdate_fields p w) as [_ [_ [_ [R1 _]]]].
    split; [exact O|rewrite R1; exact R].
  - destruct (tweenRender_fields n v sh w) as [O [_ [_ [R1 _]]]].
    split; [exact O|rewrite R1; exact R].
  - apply tweenCompleteShared_ready. exact R.
Qed.

Lemma run_ready (es : list Event) :
  forall w : World, ready w = true -> ready (run es w) = true.
Proof.
  induction es as [|e r IH]; intros w R; [exact R|].
  simpl. apply IH. apply handle_ready. exact R.
Qed.

(** X10. Nothing throws once the synchronous part of [init] has run.
    Whatever the loader delivers, with or without the engine, and whatever
    frames, key presses and tween completions happen while the stadium is
    loading and after [init] has resumed: every event handler returns, and
    so does the rest of [init]. *)
Theorem no_handler_throws_after_init (g : bool) (loaded : option THREE.Object3D)
  (es1 es2 : list Event) (e : Event) :
  outcomeOf (StadiumApp.initUntilLoad (page g)) = Returns tt /\
  outcomeOf (handle e (run es1 (loading g))) = Returns tt /\
  outcomeOf (StadiumApp.initAfterLoad loaded (run es1 (loading g))) = Returns tt /\
  outcomeOf (handle e
               (run es2 (worldOf (StadiumApp.initAfterLoad loaded
                                    (run es1 (loading g)))))) = Returns tt.
Proof.
  assert (R0 : ready (loading g) = true) by (destruct g; reflexivity).
  assert (R1 : ready (run es1 (loading g)) = true) by (apply run_ready; exact R0).
  destruct (initAfterLoad_ready loaded _ R1) as [O2 R2].
  split; [destruct g; reflexivity|].
  split; [apply handle_ready; exact R1|].
  split; [exact O2|].
  apply handle_ready. apply run_ready. exact R2.
Qed.





Lemma introOnComplete_flags (w : World) :
  currentZoomScale (appStateOf (worldOf (StadiumApp.introOnComplete w))) =
    currentZoomScale (appStateOf w) /\
  sphereVisible (appStateOf (worldOf (StadiumApp.introOnComplete w))) =
    sphereVisible (appStateOf w) /\
  stadiumDetailVisible (appStateOf (worldOf (StadiumApp.introOnComplete w))) =
    stadiumDetailVisible (appStateOf w).
Proof.
  open_world w. destruct ctl as [ctl|]; repeat split.
Qed.

Lemma tweenCompleteShared_flags (n : nat) (shared : list (nat * nat)) (w : World) :
  currentZoomScale (appStateOf (worldOf (tweenCompleteShared n shared w))) =
    currentZoomScale (appStateOf w) /\
  sphereVisible (appStateOf (worldOf (tweenCompleteShared n shared w))) =
    sphereVisible (appStateOf w) /\
  stadiumDetailVisible (appStateOf (worldOf (tweenCompleteShared n shared w))) =
    stadiumDetailVisible (appStateOf w).
Proof.
  unfold tweenCompleteShared.
  destruct (nth_error (timeline w) n) as [tw|]; [|repeat split].
  destruct (engineWrite_fields (GSAP.target tw) (GSAP.goal tw) shared (this w))
    as [_ [A _]].
  set (w1 := mkWorld _ _ _).
  assert (A1 : appStateOf w1 = appStateOf w) by exact A.
  clearbody w1. rewrite <- A1.
  destruct (GSAP.onComplete tw) as [[]|]; cbn [runCallback].
  - apply introOnComplete_flags.
  - repeat split.
Qed.

Lemma tweenComplete_flags (n : nat) (w : World) :
  currentZoomScale (appStateOf (worldOf (tweenComplete n w))) =
    currentZoomScale (appStateOf w) /\
  sphereVisible (appStateOf (worldOf (tweenComplete n w))) =
    sphereVisible (appStateOf w) /\
  stadiumDetailVisible (appStateOf (worldOf (tweenComplete n w))) =
    stadiumDetailVisible (appStateOf w).
Proof. apply (tweenCompleteShared_flags n []). Qed.

Lemma handle_flags (e : Event) (w : World) :
  flagsFollowScale (appStateOf w) ->
  flagsFollowScale (appStateOf (worldOf (handle e w))).
Proof.
  intros F. destruct e as [d|k|n|f|p|n v sh|n sh]; cbn [handle].
  - apply tick_flags. exact F.
  - destruct (onKeyDown_quiet k w) as [_ [T _]].
    unfold appStateOf. rewrite T. exact F.
  - destruct (tweenComplete_flags n w) as [A [B C]].
    unfold flagsFollowScale in *. rewrite A, B, C. exact F.
  - destruct (flickerFloodlights_fields f w) as [_ [_ [A _]]].
    unfold appStateOf. rewrite A. exact F.
  - destruct (controlsUpdate_fields p w) as [_ [A _]].
    unfold appStateOf. rewrite A. exact F.
  - destruct (tweenRender_fields n v sh w) as [_ [_ [A _]]].
    unfold appStateOf. rewrite A. exact F.
  - destruct (tweenCompleteShared_flags n sh w) as [A [B C]].
    unfold flagsFollowScale in *. rewrite A, B, C. exact F.
Qed.

(** X12. The agreement between the two visibility flags and the scale
    survives every kind of event, not only frames: key presses and tweens
    that end, the intro callback included, leave it intact. *)
Theorem flags_follow_scale_under_events (w : World) (es : list Event)
  (H : flagsFollowScale (appStateOf w)) :
  flagsFollowScale (appStateOf (run es w)).
Proof.
  revert w H. induction es as [|e r IH]; intros w H; [exact H|].
  simpl. apply IH. apply handle_flags. exact H.
Qed.

Lemma flags_follow_scale_under_events_witness :
  flagsFollowScale
    (appStateOf (run [Frame 300; TweenComplete 0; KeyDown "g"; Frame 2600]
                   (started true (Some exampleStadium)))).
Proof.
  apply (flags_follow_scale_under_events (started true (Some exampleStadium))
           [Frame 300; TweenComplete 0; KeyDown "g"; Frame 2600]).
  unfold flagsFollowScale. simpl.
  split; split; intro E; try reflexivity; discriminate E.
Defined.

End Events.

(* ================================================================== *)
(** * Further properties: whole frames *)

Section Frames.

Variable sin : Q -> Q.

Lemma flicker_event (t : Q) (rnd : nat -> Q) (w1 : World) :
  worldOf (flickerFloodlights (flickerIntensity sin rnd t) w1) = flickered sin rnd t w1.
Proof.
  unfold flickered. open_world w1. unfold flickerFloodlights.
  destruct playing, ls as [ls|], cur; reflexivity.
Qed.

Lemma flickered_ready (t : Q) (rnd : nat -> Q) (w1 : World) :
  ready (flickered sin rnd t w1) = ready w1.
Proof.
  rewrite <- flicker_event.
  destruct (flickerFloodlights_fields (flickerIntensity sin rnd t) w1) as [K [C _]].
  unfold ready. rewrite K, C. reflexivity.
Qed.

Lemma animate_after_tick (d : number) (t : Q) (rnd : nat -> Q) (p : THREE.Vector3)
  (w : World) :
  ready w = true ->
  Animation.animate sin d t rnd p w =
    (Returns tt,
     worldOf (controlsUpdate p (flickered sin rnd t (worldOf (tick d w)))),
     effectsOf (tick d w)).
Proof.
  intros R.
  pose proof (tick_returns d w R) as O.
  pose proof (tick_ready d w) as R1. rewrite R in R1.
  unfold Animation.animate, bind.
  change (StadiumApp.updateScaleBasedVisibility d w) with (tick d w).
  destruct (tick d w) as [[o w1] l1].
  unfold outcomeOf, worldOf, effectsOf in *. cbn [fst snd] in *. subst o.
  unfold flickered, controlsUpdate.
  open_world w1.
  destruct cam as [cam|]; [|discriminate R1].
  destruct ctl as [ctl|]; [|discriminate R1].
  destruct playing, ls as [ls|], cur; cbn;
    rewrite ?app_nil_r; reflexivity.
Qed.

(** X13. A frame on a page whose camera and controls exist never throws and
    issues exactly what its scale update issues.  It is the scale update,
    the floodlight block and [controls.update()] one after the other, and
    it leaves the camera at the position [controls.update()] writes.  Unless
    the frame ends at the detail scale, it leaves the world as the scale
    update followed by [controls.update()] leaves it; at the detail scale
    the world differs from that one in the floodlights at most, and in
    their intensities only, not in their number. *)
Theorem frame_flickers_only_at_detail (d : number) (t : Q) (rnd : nat -> Q)
  (p : THREE.Vector3) (w : World) (Hready : ready w = true) :
  outcomeOf (Animation.animate sin d t rnd p w) = Returns tt /\
  effectsOf (Animation.animate sin d t rnd p w) = effectsOf (tick d w) /\
  worldOf (Animation.animate sin d t rnd p w) =
    run (animateEvents d (flickerIntensity sin rnd t) p) w /\
  camera (this (worldOf (Animation.animate sin d t rnd p w))) = Some (THREE.mkCamera p) /\
  (if ZoomScale_eqb (classify d) detail then
     setLightingSystem
       (This.lightingSystem (this (worldOf (controlsUpdate p (worldOf (tick d w))))))
       (this (worldOf (Animation.animate sin d t rnd p w))) =
     this (worldOf (controlsUpdate p (worldOf (tick d w)))) /\
     timeline (worldOf (Animation.animate sin d t rnd p w)) =
       timeline (worldOf (tick d w)) /\
     option_map (fun ls => List.length (LightingSystem.floodlights ls))
       (This.lightingSystem (this (worldOf (Animation.animate sin d t rnd p w)))) =
     option_map (fun ls => List.length (LightingSystem.floodlights ls))
       (This.lightingSystem (this (worldOf (tick d w))))
   else worldOf (Animation.animate sin d t rnd p w) =
        worldOf (controlsUpdate p (worldOf (tick d w)))).
Proof.
  pose proof (tick_scale d w Hready) as S.
  pose proof (tick_ready d w) as R1. rewrite Hready in R1.
  rewrite (animate_after_tick d t rnd p w Hready).
  cbn [animateEvents run handle]. rewrite flicker_event.
  set (w1 := worldOf (tick d w)) in *.
  set (l1 := effectsOf (tick d w)) in *.
  clearbody w1 l1.
  unfold outcomeOf, effectsOf, worldOf at 1 3 5. cbn [fst snd].
  split; [reflexivity|]. split; [reflexivity|]. split; [reflexivity|].
  split.
  { apply controlsUpdate_quiet. rewrite flickered_ready. exact R1. }
  unfold flickered. rewrite S.
  destruct (ZoomScale_eqb (classify d) detail).
  - destruct w1 as [[a [cam ctl st] sp ls] g tl].
    unfold ready, camera, controls in R1. cbn in R1.
    destruct cam as [cam|]; [|discriminate R1].
    destruct ctl as [ctl|]; [|discriminate R1].
    unfold appStateOf. cbn [this This.appState This.lightingSystem timeline].
    destruct (isAnimationPlaying a); cbn [andb]; [|repeat split].
    destruct ls as [ls|]; cbn; repeat split.
    rewrite imapFrom_length. reflexivity.
  - rewrite andb_false_r. reflexivity.
Qed.









End Frames.

Lemma frame_flickers_only_at_detail_witness :
  let w := started true (Some exampleStadium) in
  let p := CAMERA_POSITIONS.mk_xyz 0 251 1782 in
  ready w = true /\
  camera (this (worldOf (Animation.animate (fun _ => 0) 1800 (7 # 2) (fun _ => 1 # 3) p w))) =
    Some (THREE.mkCamera p) /\
  worldOf (Animation.animate (fun _ => 0) 1800 (7 # 2) (fun _ => 1 # 3) p w) =
    worldOf (controlsUpdate p (worldOf (tick 1800 w))).
Proof.
  intros w p. split; [reflexivity|].
  exact (proj2 (proj2 (proj2 (frame_flickers_only_at_detail (fun _ => 0) 1800 (7 # 2)
                                (fun _ => 1 # 3) p w eq_refl)))).
Defined.

(* ================================================================== *)
(** * Further properties: device classes and quality settings *)

Section DeviceClass.

Import Performance.

Lemma prefixCI_same_letters (p : string) :
  forall (t post : string),
  toLowerCase t = toLowerCase p -> prefixCI p (t ++ post) = true.
Proof.
  induction p as [|a p' IH]; intros t post E; [reflexivity|].
  destruct t as [|b t']; simpl in E; [discriminate E|].
  injection E as E1 E2. simpl.
  rewrite E1, Ascii.eqb_refl. simpl. apply IH. exact E2.
Qed.

Lemma containsCI_after (p s : string) (pre : string) :
  prefixCI p s = true -> containsCI p (pre ++ s) = true.
Proof.
  intros H. induction pre as [|c r IH]; simpl.
  - destruct s; simpl; rewrite H; reflexivity.
  - rewrite IH. apply orb_true_r.
Qed.

(** X15. A user agent that contains one of the eight mobile names anywhere,
    in any mix of upper and lower case, is detected as mobile, and a mobile
    device is classed low-end whatever its number of cores. *)
Theorem mobile_name_anywhere (pre t post tok : string) (hc : option number)
  (Hin : In tok mobileTokens)
  (Hcase : toLowerCase t = toLowerCase tok) :
  testMobile (pre ++ t ++ post) = true /\
  isLowEnd (detectPerformance (pre ++ t ++ post) hc) = true /\
  performanceMode (detectPerformance (pre ++ t ++ post) hc) = low /\
  effectsEnabled (detectPerformance (pre ++ t ++ post) hc) = false.
Proof.
  assert (M : testMobile (pre ++ t ++ post) = true).
  { unfold testMobile. apply existsb_exists. exists tok. split; [exact Hin|].
    apply containsCI_after. apply prefixCI_same_letters. exact Hcase. }
  unfold detectPerformance. cbn [isLowEnd performanceMode effectsEnabled].
  rewrite M, orb_true_r. repeat split.
Qed.

Lemma mobile_name_anywhere_witness :
  testMobile "Mozilla/5.0 (IPHONE; CPU iPhone OS 14_7_1 like Mac OS X)" = true.
Proof.
  exact (proj1 (mobile_name_anywhere "Mozilla/5.0 (" "IPHONE"
                  "; CPU iPhone OS 14_7_1 like Mac OS X)" "iPhone" (Some (Finite 8))
                  (or_intror (or_intror (or_introl eq_refl))) eq_refl)).
Defined.

(** X16. A device is classed low-end exactly when it is mobile or reports
    at most 4 cores; a browser that reports no core count, or one that is
    not a number, is not low-end for its cores, so that a desktop browser
    without [hardwareConcurrency] gets the high class.  Mode and effects
    follow the class. *)
Theorem device_class (ua : string) (hc : option number) (q : Q) :
  (isLowEnd (detectPerformance ua hc) = true <->
   testMobile ua = true \/ atMost4 hc = true) /\
  (atMost4 (Some (Finite q)) = true <-> q <= 4) /\
  isLowEnd (detectPerformance ua None) = testMobile ua /\
  isLowEnd (detectPerformance ua (Some NaN)) = testMobile ua /\
  (performanceMode (detectPerformance ua hc) = low <->
   isLowEnd (detectPerformance ua hc) = true) /\
  effectsEnabled (detectPerformance ua hc) = negb (isLowEnd (detectPerformance ua hc)).
Proof.
  unfold detectPerformance. cbn [isLowEnd performanceMode effectsEnabled].
  split; [|split; [|split; [|split; [|split]]]].
  - rewrite orb_true_iff. tauto.
  - simpl. apply Qle_bool_iff.
  - reflexivity.
  - reflexivity.
  - destruct (atMost4 hc || testMobile ua); split; intro E;
      try reflexivity; discriminate E.
  - reflexivity.
Qed.

(** X17. The pixel ratio never exceeds the cap of the class, 1.5 for
    low-end and 2 otherwise, nor the ratio of the device: for a finite
    device pixel ratio it is the smaller of the two, and plus infinity
    gives the cap.  A device pixel ratio that is not a number is passed on
    as such, and so is minus infinity. *)
Theorem pixel_ratio_capped (c : AppConfig) (q : Q) :
  (exists r : Q,
     pixelRatio (getPerformanceSettings c (Finite q)) = Finite r /\
     r <= (if isLowEnd c then 1.5 else 2) /\
     r <= q /\
     (r = q \/ r = (if isLowEnd c then 1.5 else 2))) /\
  pixelRatio (getPerformanceSettings c NaN) = NaN /\
  pixelRatio (getPerformanceSettings c PosInfinity) =
    Finite (if isLowEnd c then 1.5 else 2) /\
  pixelRatio (getPerformanceSettings c NegInfinity) = NegInfinity.
Proof.
  unfold getPerformanceSettings.
  destruct (isLowEnd c); cbn [pixelRatio]; (split; [|repeat split]);
    unfold mathMin; cbn [geq].
  - destruct (Qle_bool 1.5 q) eqn:E.
    + apply Qle_bool_iff in E. exists 1.5. repeat split; auto; lra.
    + apply Qle_bool_false in E. exists q. repeat split; auto; lra.
  - destruct (Qle_bool 2 q) eqn:E.
    + apply Qle_bool_iff in E. exists 2. repeat split; auto; lra.
    + apply Qle_bool_false in E. exists q. repeat split; auto; lra.
Qed.

(** X18. For the configuration that [detectPerformance] yields, the pieces
    that read it agree with each other: antialiasing, shadows and
    post-processing are on exactly when effects are enabled; the floodlights
    cast shadows exactly when the renderer's shadow map is enabled; a
    low-end device gets no composer and renders directly, any other device
    renders through a composer with a render pass and a bloom pass. *)
Theorem quality_settings_agree (ua : string) (hc : option number) (dpr : number) :
  (antialias (getPerformanceSettings (detectPerformance ua hc) dpr) =
     effectsEnabled (detectPerformance ua hc) /\
   shadows (getPerformanceSettings (detectPerformance ua hc) dpr) =
     effectsEnabled (detectPerformance ua hc) /\
   postProcessing (getPerformanceSettings (detectPerformance ua hc) dpr) =
     effectsEnabled (detectPerformance ua hc)) /\
  Display.floodlightCastsShadow (detectPerformance ua hc) =
    Display.shadowMapEnabled (getPerformanceSettings (detectPerformance ua hc) dpr) /\
  Display.render (getPerformanceSettings (detectPerformance ua hc) dpr)
    (Display.composerAfterInit (getPerformanceSettings (detectPerformance ua hc) dpr)) =
    (if isLowEnd (detectPerformance ua hc) then Display.Direct
     else Display.ThroughComposer
            [Display.RenderPass; Display.UnrealBloomPass 2.0 0.3 0.95]).
Proof.
  unfold detectPerformance, getPerformanceSettings, Display.floodlightCastsShadow,
    Display.shadowMapEnabled, Display.render, Display.composerAfterInit,
    Display.initPostProcessing.
  cbn [isLowEnd effectsEnabled].
  destruct (atMost4 hc || testMobile ua); cbn; repeat split.
Qed.

End DeviceClass.

(* ================================================================== *)
(** * Further properties: the stadium on a running page *)

Section StadiumOnPage.

Lemma update_visibilityIs (g v : bool) (s : THREE.Object3D) (d : option Q) :
  visibilityIs v (fst (StadiumLoader.updateStadiumVisibility g s v d)).
Proof.
  unfold visibilityIs, StadiumLoader.updateStadiumVisibility.
  cbn [fst THREE.self THREE.descendants]. split.
  - unfold StadiumLoader.visitNode. cbn [THREE.isMesh].
    destruct (THREE.isMesh (THREE.self s)); reflexivity.
  - induction (THREE.descendants s) as [|n r IH]; simpl; constructor; auto.
    apply visitNode_visible.
Qed.

Lemma prepare_visibilityIs (s : THREE.Object3D) :
  visibilityIs false (StadiumLoader.prepareStadiumMaterials s).
Proof.
  unfold visibilityIs, StadiumLoader.prepareStadiumMaterials.
  cbn [THREE.self THREE.descendants]. split.
  - unfold StadiumLoader.prepareNode. cbn [THREE.isMesh].
    destruct (THREE.isMesh (THREE.self s)); reflexivity.
  - induction (THREE.descendants s) as [|n r IH]; simpl; constructor; auto.
    unfold StadiumLoader.prepareNode.
    destruct (THREE.isMesh n) eqn:M; [right; reflexivity|left; exact M].
Qed.

Lemma updateNth_Forall {A : Type} (P : A -> Prop) (f : A -> A) (l : list A) :
  (forall a, P a -> P (f a)) -> Forall P l -> forall n, Forall P (updateNth n f l).
Proof.
  intros Hf H. induction H as [|a r Ha Hr IH]; intros n.
  - destruct n; constructor.
  - destruct n; simpl; constructor; auto.
Qed.

Lemma objectWithOpacity_visibilityIs (i j : nat) (o : Q) (v : bool)
  (s : THREE.Object3D) :
  visibilityIs v s -> visibilityIs v (objectWithOpacity i j o s).
Proof.
  unfold visibilityIs, objectWithOpacity. intros [A B].
  destruct i; cbn [THREE.self THREE.descendants]; split; auto.
  apply updateNth_Forall; [|exact B].
  intros n H. exact H.
Qed.

Lemma tick_stadium (d : number) (w : World) :
  stadiumFollowsScale w -> stadiumFollowsScale (worldOf (tick d w)).
Proof.
  unfold stadiumFollowsScale. open_world w. intros H.
  tick_branches d cam ctl st sp ls cur sv dv; try exact H; try exact I.
  all: unfold worldOf; cbn [fst snd this This.sceneElements SceneElements.stadium
         This.appState currentZoomScale]; apply update_visibilityIs.
Qed.

Lemma fold_objectWithOpacity_visibilityIs (o : Q) (v : bool) (l : list (nat * nat)) :
  forall s : THREE.Object3D,
  visibilityIs v s ->
  visibilityIs v (fold_left (fun s' ij => objectWithOpacity (fst ij) (snd ij) o s') l s).
Proof.
  induction l as [|ij r IH]; intros s H; [exact H|].
  cbn [fold_left]. apply IH. apply objectWithOpacity_visibilityIs. exact H.
Qed.

(** The engine writes opacities, never visibility. *)
Lemma engineWrite_stadium (tg : GSAP.Target) (v : GSAP.Goal)
  (shared : list (nat * nat)) (vis : bool) (t : This.t) :
  match SceneElements.stadium (This.sceneElements t) with
  | Some s => visibilityIs vis s
  | None => True
  end ->
  match SceneElements.stadium (This.sceneElements (engineWrite tg v shared t)) with
  | Some s => visibilityIs vis s
  | None => True
  end.
Proof.
  destruct t as [a [cam ctl st] sp ls]. unfold engineWrite.
  destruct tg, v; cbn; intros H; try exact H.
  destruct st as [s|]; cbn; [|exact I].
  apply fold_objectWithOpacity_visibilityIs.
  apply objectWithOpacity_visibilityIs. exact H.
Qed.

Lemma introOnComplete_stadium (w : World) :
  stadiumFollowsScale w -> stadiumFollowsScale (worldOf (StadiumApp.introOnComplete w)).
Proof.
  unfold stadiumFollowsScale. open_world w.
  destruct ctl as [ctl|]; intros H; exact H.
Qed.

Lemma tweenCompleteShared_stadium (n : nat) (shared : list (nat * nat)) (w : World) :
  stadiumFollowsScale w -> stadiumFollowsScale (worldOf (tweenCompleteShared n shared w)).
Proof.
  unfold tweenCompleteShared. intros H.
  destruct (nth_error (timeline w) n) as [tw|]; [|exact H].
  destruct (engineWrite_fields (GSAP.target tw) (GSAP.goal tw) shared (this w))
    as [_ [A _]].
  pose proof (engineWrite_stadium (GSAP.target tw) (GSAP.goal tw) shared
                (negb (ZoomScale_eqb (currentZoomScale (appStateOf w)) sphere))
                (this w) H) as S.
  set (w1 := mkWorld _ _ _).
  assert (H1 : stadiumFollowsScale w1).
  { unfold stadiumFollowsScale, stadiumOf, appStateOf, w1. cbn [this].
    rewrite A. exact S. }
  clearbody w1.
  destruct (GSAP.onComplete tw) as [[]|]; cbn [runCallback].
  - apply introOnComplete_stadium. exact H1.
  - exact H1.
Qed.

Lemma tweenComplete_stadium (n : nat) (w : World) :
  stadiumFollowsScale w -> stadiumFollowsScale (worldOf (tweenComplete n w)).
Proof. apply (tweenCompleteShared_stadium n []). Qed.

Lemma tweenRender_stadium (n : nat) (v : GSAP.Goal) (shared : list (nat * nat))
  (w : World) :
  stadiumFollowsScale w -> stadiumFollowsScale (worldOf (tweenRender n v shared w)).
Proof.
  unfold tweenRender. intros H.
  destruct (nth_error (timeline w) n) as [tw|]; [|exact H].
  destruct (engineWrite_fields (GSAP.target tw) v shared (this w)) as [_ [A _]].
  pose proof (engineWrite_stadium (GSAP.target tw) v shared
                (negb (ZoomScale_eqb (currentZoomScale (appStateOf w)) sphere))
                (this w) H) as S.
  unfold stadiumFollowsScale, stadiumOf, appStateOf, worldOf. cbn [fst snd this].
  rewrite A. exact S.
Qed.

Lemma handle_stadium (e : Event) (w : World) :
  stadiumFollowsScale w -> stadiumFollowsScale (worldOf (handle e w)).
Proof.
  intros H. destruct e as [d|k|n|f|p|n v sh|n sh]; cbn [handle].
  - apply tick_stadium. exact H.
  - destruct (onKeyDown_quiet k w) as [_ [T _]].
    unfold stadiumFollowsScale, stadiumOf, appStateOf in *. rewrite T. exact H.
  - apply tweenComplete_stadium. exact H.
  - destruct (flickerFloodlights_fields f w) as [_ [_ [A S]]].
    unfold stadiumFollowsScale, appStateOf in *. rewrite S, A. exact H.
  - destruct (controlsUpdate_fields p w) as [_ [A [S _]]].
    unfold stadiumFollowsScale, appStateOf in *. rewrite S, A. exact H.
  - apply tweenRender_stadium. exact H.
  - apply tweenCompleteShared_stadium. exact H.
Qed.

Lemma run_stadium (es : list Event) :
  forall w : World, stadiumFollowsScale w -> stadiumFollowsScale (run es w).
Proof.
  induction es as [|e r IH]; intros w H; [exact H|].
  simpl. apply IH. apply handle_stadium. exact H.
Qed.

Lemma initAfterLoad_model (model : THREE.Object3D) (w : World) :
  ready w = true ->
  stadiumOf (worldOf (StadiumApp.initAfterLoad (Some model) w)) =
    Some (StadiumLoader.prepareStadiumMaterials model) /\
  currentZoomScale (appStateOf (worldOf (StadiumApp.initAfterLoad (Some model) w))) =
    currentZoomScale (appStateOf w).
Proof.
  open_world w. intros R.
  destruct cam as [cam|]; [|discriminate R].
  destruct ctl as [ctl|]; [|discriminate R].
  destruct g; split; reflexivity.
Qed.

Lemma initAfterLoad_nothing (w : World) :
  ready w = true ->
  stadiumOf (worldOf (StadiumApp.initAfterLoad None w)) = stadiumOf w /\
  currentZoomScale (appStateOf (worldOf (StadiumApp.initAfterLoad None w))) =
    currentZoomScale (appStateOf w).
Proof.
  open_world w. intros R.
  destruct cam as [cam|]; [|discriminate R].
  destruct ctl as [ctl|]; [|discriminate R].
  destruct g; split; reflexivity.
Qed.

Lemma prepared_not_visible (model : THREE.Object3D) :
  ~ visibilityIs true (StadiumLoader.prepareStadiumMaterials model).
Proof.
  unfold visibilityIs, StadiumLoader.prepareStadiumMaterials, StadiumLoader.prepareNode.
  cbn [THREE.self THREE.isMesh THREE.visible]. intros [A _].
  destruct (THREE.isMesh (THREE.self model)); discriminate A.
Qed.

(** X19. The stadium needs no flag: its visibility follows the scale.  On a
    page where the model and its meshes are visible exactly off the sphere
    scale, they still are after any events.  The rest of [init], which runs
    when the loader has settled and after whatever events the loading page
    has seen, leaves such a page if the page is still at the sphere scale
    then; if it is not, the model it stores is hidden although the scale
    asks for it. *)
Theorem stadium_follows_scale (w : World) (es : list Event) (g : bool)
  (loaded : option THREE.Object3D) (es1 : list Event)
  (H : stadiumFollowsScale w) :
  stadiumFollowsScale (run es w) /\
  (if ZoomScale_eqb (currentZoomScale (appStateOf (run es1 (loading g)))) sphere
   then stadiumFollowsScale
          (worldOf (StadiumApp.initAfterLoad loaded (run es1 (loading g))))
   else forall model : THREE.Object3D,
        ~ stadiumFollowsScale
            (worldOf (StadiumApp.initAfterLoad (Some model) (run es1 (loading g))))).
Proof.
  split; [apply run_stadium; exact H|].
  assert (R0 : ready (loading g) = true) by (destruct g; reflexivity).
  assert (R1 : ready (run es1 (loading g)) = true) by (apply run_ready; exact R0).
  assert (S1 : stadiumFollowsScale (run es1 (loading g))).
  { apply run_stadium. destruct g; exact I. }
  set (w1 := run es1 (loading g)) in *. clearbody w1.
  destruct (ZoomScale_eqb (currentZoomScale (appStateOf w1)) sphere) eqn:E.
  - destruct loaded as [model|].
    + destruct (initAfterLoad_model model w1 R1) as [M S].
      unfold stadiumFollowsScale. rewrite M, S, E. apply prepare_visibilityIs.
    + destruct (initAfterLoad_nothing w1 R1) as [M S].
      unfold stadiumFollowsScale in *. rewrite M, S. exact S1.
  - intros model.
    destruct (initAfterLoad_model model w1 R1) as [M S].
    unfold stadiumFollowsScale. rewrite M, S, E. apply prepared_not_visible.
Qed.

Lemma stadium_follows_scale_witness :
  stadiumFollowsScale
    (run [Frame 1800; TweenCompleteShared 3 [(2, 0)%nat]; Frame 300; KeyDown "g";
          ControlsUpdate (CAMERA_POSITIONS.mk_xyz 0 251 3992); Frame 4000]
       (started true (Some exampleStadium))) /\
  stadiumFollowsScale
    (worldOf (StadiumApp.initAfterLoad (Some exampleStadium)
                (run [Frame 2600; KeyDown "g"] (loading true)))) /\
  ~ stadiumFollowsScale
      (worldOf (StadiumApp.initAfterLoad (Some exampleStadium)
                  (run [Frame 1800] (loading true)))).
Proof.
  assert (H0 : stadiumFollowsScale (started true (Some exampleStadium))).
  { unfold stadiumFollowsScale, visibilityIs. cbn.
    split; [reflexivity|].
    repeat (constructor; [right; reflexivity|]). constructor. }
  split; [|split].
  - exact (proj1 (stadium_follows_scale (started true (Some exampleStadium))
                    [Frame 1800; TweenCompleteShared 3 [(2, 0)%nat]; Frame 300; KeyDown "g";
                     ControlsUpdate (CAMERA_POSITIONS.mk_xyz 0 251 3992); Frame 4000]
                    true None [] H0)).
  - exact (proj2 (stadium_follows_scale (started true (Some exampleStadium)) []
                    true (Some exampleStadium) [Frame 2600; KeyDown "g"] H0)).
  - exact (proj2 (stadium_follows_scale (started true (Some exampleStadium)) []
                    true None [Frame 1800] H0) exampleStadium).
Defined.




End StadiumOnPage.
